(** * ai-poet: the feature index loader and the selection service

    A shallow embedding of [pdf_utils.py] ([PDFFeatureLoader]) and of
    [main.py] ([FeatureEngine.select_features_semantically]), with the
    properties of the specification proved over it.

    Conventions.
    - A Python [str] is a list of Unicode code points ([N]), standing
      for text that UTF-8 can encode.
    - A [dict] with string keys is a [gmap str _].
    - The file system maps a path to a file; [self.pdf_path] and
      [self.json_path] are looked up in it.  The text layer of the
      cache file ([json.dump] with [indent=2], [json.load]) is
      abstracted by the decoded value.
    - Stateful methods live in a state-and-exception monad [M]; what
      they print is kept as a list of messages. *)

From stdpp Require Import gmap list strings pretty.
From Stdlib Require Import QArith.

Local Open Scope N_scope.
Local Open Scope list_scope.

(** ** Python strings *)

Module Py.

Abbreviation char := N (only parsing).
Abbreviation str := (list N) (only parsing).

(** An ASCII literal of the source, as code points. *)
Definition lit (x : string) : str :=
  (fun a => Ascii.N_of_ascii a) <$> String.list_ascii_of_string x.

(** [str.isspace] on one character: the code points CPython's
    [_PyUnicode_IsWhitespace] accepts. *)
Definition isspace (c : char) : bool :=
  ((9 <=? c) && (c <=? 13)) || ((28 <=? c) && (c <=? 32))
  || (c =? 133) || (c =? 160) || (c =? 5760)
  || ((8192 <=? c) && (c <=? 8202))
  || (c =? 8232) || (c =? 8233) || (c =? 8239) || (c =? 8287)
  || (c =? 12288).

Fixpoint lstrip (s : str) : str :=
  match s with
  | c :: s' => if isspace c then lstrip s' else s
  | [] => []
  end.

Definition rstrip (s : str) : str := rev (lstrip (rev s)).

(** [s.strip()] *)
Definition strip (s : str) : str := rstrip (lstrip s).

(** [s.startswith(p)], returning the rest of [s] after [p]. *)
Fixpoint after_prefix (p s : str) : option str :=
  match p, s with
  | [], _ => Some s
  | a :: p', b :: s' => if (a =? b) then after_prefix p' s' else None
  | _ :: _, [] => None
  end.

(** The leftmost occurrence of [sep] in [s]: the text before it and the
    text after it ([s.find(sep)] and the two slices around it). *)
Fixpoint cut (sep s : str) : option (str * str) :=
  match after_prefix sep s with
  | Some rest => Some ([], rest)
  | None =>
      match s with
      | [] => None
      | c :: s' =>
          match cut sep s' with
          | Some (a, b) => Some (c :: a, b)
          | None => None
          end
      end
  end.

(** [sub in s] *)
Definition contains (sub s : str) : bool :=
  match cut sub s with Some _ => true | None => false end.

(** [s.split(sep, maxsplit)] for [maxsplit >= 0] and a non-empty [sep]:
    at most [maxsplit] cuts, leftmost first. *)
Fixpoint splitn (maxsplit : nat) (sep s : str) : list str :=
  match maxsplit with
  | O => [s]
  | S n =>
      match cut sep s with
      | None => [s]
      | Some (a, b) => a :: splitn n sep b
      end
  end.

(** [s.split(sep)]: no limit on the number of cuts.  A non-empty
    separator cuts [s] fewer than [length s + 1] times. *)
Definition split (sep s : str) : list str := splitn (length s) sep s.

(** [sep.join(l)] *)
Fixpoint join (sep : str) (l : list str) : str :=
  match l with
  | [] => []
  | [x] => x
  | x :: l' => x ++ sep ++ join sep l'
  end.

End Py.
Import Py.

(** ** Data model *)

(** [langchain_core.documents.Document]: the content and the metadata
    mapping.  Metadata values are strings, as the parser writes them and
    as the cache format has them. *)
Record Document := mkDocument {
  page_content : str;
  metadata : gmap str str }.

(** The exceptions that the modelled code can meet. *)
Inductive exn :=
| OSError           (* open, read or write of a file fails *)
| JSONDecodeError   (* json.load rejects the text, or what it decodes
                       is not an array of objects *)
| ValidationError   (* Document(...) is given a field of the wrong type *)
| ValueError        (* unpacking [key, val = ...] of a list not of length 2 *)
| PdfReadError      (* PdfReader(...) or extract_text() fails *)
| ProviderError.    (* the embedding provider or the vector index fails *)

Inductive result (A : Type) :=
| Ok (a : A)
| Raise (e : exn).
Arguments Ok {A} a.
Arguments Raise {A} e.

(** A value under a key of a decoded cache entry: a string, a mapping of
    strings, or any other JSON value (number, null, array, ...). *)
Inductive jvalue :=
| JStr (s : str)
| JDict (m : gmap str str)
| JOther.

(** A file: its modification time ([os.path.getmtime], a finite float,
    here the rational it denotes), what [PdfReader] and [extract_text]
    give for it (the text of every page, or a failure), and what
    [json.load] followed by the iteration over the entries gives for it. *)
Record file := mkFile {
  mtime : Q;
  as_pdf : option (list str);
  as_json : result (list (gmap str jvalue)) }.

(** What is printed. *)
Inductive message :=
| Loaded_from_cache (n : nat)
| Error_loading_cache (e : exn)
| Saved_to_cache (n : nat)
| Error_saving_cache (e : exn)
| Cache_valid
| PDF_not_found (path : str)
| Parsing_PDF
| No_content_parsed
| Built_index (n : nat)
| No_documents_to_index.

(** [main.py]: the data models. *)
Record DailyQuantity := mkDailyQuantity {
  day_number : Z;
  quantity : Z }.

Record MarketingPlan := mkMarketingPlan {
  product_name : str;
  start_date : str;
  total_quantity : Z;
  daily_quantities : list DailyQuantity;
  target_gender : str;
  target_age_min : Z;
  target_age_max : Z;
  campaign_keywords : str }.

(** ** The document parser (the body of the [for line in lines] loop) *)

(** [key, val = l] *)
Definition unpack2 (l : list str) : result (str * str) :=
  match l with
  | [a; b] => Ok (a, b)
  | _ => Raise ValueError
  end.

(** [for p in parts: if ":" in p: key, val = p.split(":", 1);
    meta[key.strip()] = val.strip()] *)
Fixpoint parse_fields (parts : list str) (meta : gmap str str)
  : result (gmap str str) :=
  match parts with
  | [] => Ok meta
  | p :: rest =>
      if contains (lit ":") p then
        match unpack2 (splitn 1 (lit ":") p) with
        | Ok (key, val) => parse_fields rest (<[strip key := strip val]> meta)
        | Raise e => Raise e
        end
      else parse_fields rest meta
  end.

(** The body of the [try] for one line. *)
Definition parse_row (pdf_path line : str) : result Document :=
  let parts := split (lit " | ") line in
  match parse_fields parts ∅ with
  | Raise e => Raise e
  | Ok meta =>
      Ok {| page_content := line;
            metadata :=
              {[ lit "source" := pdf_path;
                 lit "feature_name" := default (lit "Unknown") (meta !! lit "ID");
                 lit "category" := default (lit "") (meta !! lit "CAT");
                 lit "description" := default (lit "") (meta !! lit "DESC");
                 lit "value" := default (lit "0") (meta !! lit "VAL") ]} |}
  end.

(** [for line in lines: if "ID: " in line and " | " in line: try: ...
    documents.append(doc) except Exception: continue] *)
Fixpoint parse_lines (pdf_path : str) (lines : list str)
    (documents : list Document) : list Document :=
  match lines with
  | [] => documents
  | line :: rest =>
      if contains (lit "ID: ") line && contains (lit " | ") line then
        match parse_row pdf_path line with
        | Ok doc => parse_lines pdf_path rest (documents ++ [doc])
        | Raise _ => parse_lines pdf_path rest documents
        end
      else parse_lines pdf_path rest documents
  end.

(** [raw_text = ""; for page in reader.pages: raw_text +=
    page.extract_text() + "\n"] *)
Definition extract_raw_text (pages : list str) : str :=
  fold_left (fun raw_text page => raw_text ++ (page ++ [10])) pages [].

(** ** Notions of the specification *)

(** The Feature Row Format: a segment [key: value] gives the trimmed
    pair, split at the first colon; a segment without a colon gives
    nothing. *)
Definition key_value (segment : str) : option (str * str) :=
  match cut (lit ":") segment with
  | Some (k, v) => Some (strip k, strip v)
  | None => None
  end.

(** The field mapping of a line: the pairs of its [" | "]-separated
    segments, a later pair replacing an earlier one of the same key. *)
Definition field_mapping (line : str) : gmap str str :=
  list_to_map (rev (omap key_value (split (lit " | ") line))).

(** The structured fields of a record: the key of the row, the name of
    the field, and the value the field takes when the key is absent. *)
Definition structured_fields : list (str * str * str) :=
  [ (lit "ID", lit "feature_name", lit "Unknown");
    (lit "CAT", lit "category", lit "");
    (lit "DESC", lit "description", lit "");
    (lit "VAL", lit "value", lit "0") ].

(** ** The campaign plan of [main] *)

(** [base_qty = total_quantity // duration_days; remainder =
    total_quantity % duration_days; daily_quantities =
    [DailyQuantity(day_number=i, quantity=base_qty + (1 if i <=
    remainder else 0)) for i in range(1, duration_days + 1)]].  [None]
    is the [ZeroDivisionError] of a zero [duration_days]. *)
Definition plan_daily_quantities (total_quantity duration_days : Z)
  : option (list DailyQuantity) :=
  if decide (duration_days = 0)%Z then None
  else
    let base_qty := (total_quantity `div` duration_days)%Z in
    let remainder := (total_quantity `mod` duration_days)%Z in
    Some ((fun i =>
             mkDailyQuantity i
               (base_qty + (if (i <=? remainder)%Z then 1 else 0))%Z)
            <$> seqZ 1 duration_days).

(** ** The fixture generator ([feature_generator.py]) *)

(** The dict [categories], in the order it is written. *)
Definition categories : list (str * list str) :=
  [ (lit "Digital Engagement",
     [lit "App Launch Frequency"; lit "Session Duration";
      lit "Late Night Access"; lit "Scroll Depth"; lit "Search Keywords";
      lit "Cart Abandonment"; lit "Login Attempts"; lit "MyPage View";
      lit "Banner Click"; lit "Widget Usage"]);
    (lit "Usage & Network",
     [lit "Voice Call Out"; lit "Voice Call In"; lit "Night/Weekend Call";
      lit "Data Usage Total"; lit "5G Ratio"; lit "WiFi vs Cellular";
      lit "Tethering Usage"; lit "Roaming History"]);
    (lit "Content & Media",
     [lit "TV Watch Time"; lit "VOD Purchase"; lit "Genre Preference";
      lit "Binge Watching"; lit "Content Search"; lit "Kids Content";
      lit "Adult Content"; lit "Playback Speed"]);
    (lit "Commerce & Finance",
     [lit "ARPU"; lit "High Plan Retention"; lit "Payment Risks";
      lit "Micropayment Amount"; lit "Membership Usage";
      lit "Affiliate Card"; lit "Auto Pay Method";
      lit "Family Combination"]);
    (lit "Location & Mobility",
     [lit "Home Base Time"; lit "Work Base Time"; lit "Daily Moving Dist";
      lit "Transport Mode"; lit "POI Visit (Cafe/Mart)";
      lit "Travel Spot Visit"; lit "Overseas Roaming"]);
    (lit "Device & Tech",
     [lit "Device Model"; lit "Device Age"; lit "Price Tier";
      lit "OS Version"; lit "Battery Pattern"; lit "Wearable Connection";
      lit "Change Cycle"; lit "eSIM Usage"]);
    (lit "Service & Relation",
     [lit "VOC Cal Count"; lit "Complaint Type"; lit "Chatbot Usage";
      lit "Satisfaction Score"; lit "Long-term Benefit"; lit "SNS Follow";
      lit "Churn Defense History"]);
    (lit "Marketing Reaction",
     [lit "Push Click Rate"; lit "SMS Link Click"; lit "Response Latency";
      lit "Fatigue Level"; lit "Opt-out History"]) ].

(** [categories[cat]]; [None] is the [KeyError]. *)
Fixpoint dict_get (d : list (str * list str)) (key : str)
  : option (list str) :=
  match d with
  | [] => None
  | (k, v) :: d' => if decide (k = key) then Some v else dict_get d' key
  end.

(** The random source is a sequence of raw draws; a call reduces its
    draw to the range it asks for.  [random.choice(l)] is the element at
    a position below [len(l)], and [None] (the [IndexError]) for an empty
    [l]; [random.randint(a, b)] is [a] plus a number below [b - a + 1]. *)
Definition random_choice {A} (l : list A) (draw : nat) : option A :=
  l !! (draw mod length l)%nat.

Definition random_randint (a b : N) (draw : nat) : N :=
  a + N.of_nat draw mod (b - a + 1).

(** [str(n)] for a natural number. *)
Definition str_of_int (n : N) : str := lit (pretty n).

(** [f"{n:03d}"]: zeros on the left up to three characters. *)
Definition format_03d (n : N) : str :=
  let s := str_of_int n in replicate (3 - length s) 48 ++ s.

(** The two literal pieces of the f-string of [desc]. *)
Definition desc_mid : str := [32; 52852; 53580; 44256; 47532; 51032; 32].
Definition desc_tail : str := [32; 48516; 49437; 32; 51648; 54364].

(** [f"ID: {feat_name} | CAT: {cat} | DESC: {desc} | VAL: {value}"] *)
Definition feature_row (feat_name cat desc value : str) : str :=
  lit "ID: " ++ feat_name ++ lit " | CAT: " ++ cat ++ lit " | DESC: " ++ desc
    ++ lit " | VAL: " ++ value.

(** The body of [while count < 1500], for the draws from position
    [drawn] on; a row of [data] is given by its one cell. *)
Fixpoint generate_rows (fuel : nat) (rand : nat -> nat) (drawn : nat)
    (count : N) (data : list str) : option (list str) :=
  match fuel with
  | O => Some data
  | S fuel' =>
      if count <? 1500 then
        match random_choice (categories.*1) (rand drawn) with
        | None => None
        | Some cat =>
            match dict_get categories cat with
            | None => None
            | Some feats =>
                match random_choice feats (rand (S drawn)) with
                | None => None
                | Some feat_base =>
                    let count := count + 1 in
                    let feat_name := feat_base ++ lit " #" ++ format_03d count in
                    let desc := cat ++ desc_mid ++ feat_base ++ desc_tail in
                    let value :=
                      str_of_int (random_randint 0 100 (rand (S (S drawn)))) in
                    let row_text := feature_row feat_name cat desc value in
                    generate_rows fuel' rand (S (S (S drawn))) count
                      (data ++ [row_text])
                end
            end
        end
      else Some data
  end.

(** The rows of the table that [generate_feature_pdf] builds: the
    header and 1500 iterations of the loop. *)
Definition generated_data (rand : nat -> nat) : option (list str) :=
  generate_rows 1500 rand 0 0 [lit "Feature Info"].

(** [int(s)] for a string of decimal digits. *)
Definition int_of_str (s : str) : N :=
  foldl (fun acc c => 10 * acc + (c - 48)) 0 s.

(** A decimal digit. *)
Definition is_digit (c : N) : Prop := 48 <= c <= 57.

(** A name of the table that can stand in a row as it is: no [|], no
    [#], not empty, no white space at either end. *)
Definition plain_name (s : str) : bool :=
  bool_decide (124 ∉ s) && bool_decide (35 ∉ s)
  && match s with c :: _ => negb (isspace c) | [] => false end
  && match last s with Some d => negb (isspace d) | None => false end.

(** A string that [strip] leaves alone at its left end, at its right
    end. *)
Definition head_ok (s : str) : Prop :=
  exists c m, s = c :: m /\ isspace c = false.
Definition last_ok (s : str) : Prop :=
  exists m d, s = m ++ [d] /\ isspace d = false.

(** The record of a generated row. *)
Definition generated_document (pdf_path : str) (count : N) (doc : Document)
  : Prop :=
  exists cat feats feat_base value,
    ((cat, feats) ∈ categories) /\ (feat_base ∈ feats) /\ value <= 100 /\
    int_of_str (str_of_int value) = value /\
    doc =
      mkDocument
        (feature_row (feat_base ++ lit " #" ++ format_03d count) cat
           (cat ++ desc_mid ++ feat_base ++ desc_tail) (str_of_int value))
        {[ lit "source" := pdf_path;
           lit "feature_name" := feat_base ++ lit " #" ++ format_03d count;
           lit "category" := cat;
           lit "description" := cat ++ desc_mid ++ feat_base ++ desc_tail;
           lit "value" := str_of_int value ]}.

(** ** More notions of the specification *)

(** The record of a well-formed row: the trimmed fields. *)
Definition record_of_fields (pdf_path : str) (fields : str * str * str * str)
  : Document :=
  let '(feat_name, cat, desc, value) := fields in
  mkDocument (feature_row feat_name cat desc value)
    {[ lit "source" := pdf_path;
       lit "feature_name" := strip feat_name;
       lit "category" := strip cat;
       lit "description" := strip desc;
       lit "value" := strip value ]}.

(** The fields hold no separator character. *)
Definition bar_free (fields : str * str * str * str) : Prop :=
  let '(feat_name, cat, desc, value) := fields in
  (124 ∉ feat_name) /\ (124 ∉ cat) /\ (124 ∉ desc) /\ (124 ∉ value).

(** A cache entry that [Document] accepts, and the record it gives. *)
Definition entry_document (item : gmap str jvalue) : option Document :=
  match default (JStr (lit "")) (item !! lit "page_content"),
        default (JDict ∅) (item !! lit "metadata") with
  | JStr s, JDict m => Some (mkDocument s m)
  | _, _ => None
  end.

(** A row that the generator can write when [count] has the given
    value. *)
Definition generated_row (count : N) (row : str) : Prop :=
  exists cat feats feat_base value,
    ((cat, feats) ∈ categories) /\ (feat_base ∈ feats) /\ value <= 100 /\
    row = feature_row (feat_base ++ lit " #" ++ format_03d count) cat
            (cat ++ desc_mid ++ feat_base ++ desc_tail) (str_of_int value).

(** ** A sample provider

    An index that keeps the documents in their order and answers every
    query with the first [k] of them, at score [0]. *)

Definition sample_from_documents (documents : list Document)
  : option (list Document) := Some documents.

Definition sample_search (store : list Document) (query : str) (k : nat)
  : option (list (Document * Q)) :=
  Some (take k ((fun doc => (doc, 0%Q)) <$> store)).

(** ** The loader and the engine *)

Section Engine.

(** The external collaborators: the similarity score (a float that the
    code only copies), the vector index, [FAISS.from_documents] (with the
    embedding provider behind it) and
    [vector_store.similarity_search_with_score].  [None] is a failure of
    the provider, which the code does not catch. *)
Variable score : Type.
Variable index : Type.
Variable from_documents : list Document -> option index.
Variable similarity_search_with_score :
  index -> str -> nat -> option (list (Document * score)).

(** [SelectedFeature] *)
Record SelectedFeature := mkSelectedFeature {
  name : str;
  reason : str;
  similarity_score : score }.

(** An entry of the list [search_similar_features] returns: a dict with
    exactly the keys [raw_text], [metadata] and [similarity_score]. *)
Record Hit := mkHit {
  hit_raw_text : str;
  hit_metadata : gmap str str;
  hit_similarity_score : score }.

(** The loader object ([self]), the file system and the standard
    output.  [locked] holds the paths that cannot be opened for writing;
    [clock] is the time a write stamps on a file. *)
Record state := mkState {
  pdf_path : str;
  json_path : str;
  vector_store : option index;
  files : gmap str file;
  locked : gset str;
  clock : Q;
  stdout : list message }.

Definition set_vector_store (v : option index) (st : state) : state :=
  mkState (pdf_path st) (json_path st) v (files st) (locked st) (clock st)
    (stdout st).

Definition set_files (fs : gmap str file) (st : state) : state :=
  mkState (pdf_path st) (json_path st) (vector_store st) fs (locked st)
    (clock st) (stdout st).

Definition set_stdout (out : list message) (st : state) : state :=
  mkState (pdf_path st) (json_path st) (vector_store st) (files st)
    (locked st) (clock st) out.

(** [PDFFeatureLoader.__init__], as far as the state goes. *)
Definition init (pdf_path json_path : str) (fs : gmap str file)
    (locked : gset str) (clock : Q) : state :=
  mkState pdf_path json_path None fs locked clock [].

(** *** The monad of the methods *)

Definition M (A : Type) : Type := state -> result A * state.

Definition ret {A} (a : A) : M A := fun st => (Ok a, st).

Definition bind {A B} (m : M A) (f : A -> M B) : M B :=
  fun st =>
    match m st with
    | (Ok a, st') => f a st'
    | (Raise e, st') => (Raise e, st')
    end.

Definition raise {A} (e : exn) : M A := fun st => (Raise e, st).

(** [try: m except Exception as e: handler e] *)
Definition try_except {A} (m : M A) (handler : exn -> M A) : M A :=
  fun st =>
    match m st with
    | (Ok a, st') => (Ok a, st')
    | (Raise e, st') => handler e st'
    end.

Definition lift {A} (r : result A) : M A := fun st => (r, st).

(** A call to the provider. *)
Definition provider {A} (o : option A) : M A :=
  match o with
  | Some a => ret a
  | None => raise ProviderError
  end.

Definition get {A} (f : state -> A) : M A := fun st => (Ok (f st), st).

Definition modify (f : state -> state) : M unit := fun st => (Ok tt, f st).

Notation "x <- m ;; k" := (bind m (fun x => k))
  (at level 100, m at next level, k at level 200, right associativity).
Notation "m ;; k" := (bind m (fun _ => k))
  (at level 100, k at level 200, right associativity).

Definition print (msg : message) : M unit :=
  modify (fun st => set_stdout (stdout st ++ [msg]) st).

(** *** The file system *)

Definition os_path_exists (path : str) : M bool :=
  get (fun st => bool_decide (is_Some (files st !! path))).

Definition os_path_getmtime (path : str) : M Q :=
  fs <- get files ;;
  match fs !! path with
  | Some f => ret (mtime f)
  | None => raise OSError
  end.

(** [with open(path, 'r', encoding='utf-8') as f: data = json.load(f)],
    with the check that [for item in data] and [item.get] need. *)
Definition json_load (path : str) : M (list (gmap str jvalue)) :=
  fs <- get files ;;
  match fs !! path with
  | Some f => lift (as_json f)
  | None => raise OSError
  end.

(** [with open(path, 'w', encoding='utf-8') as f: json.dump(data, f,
    ensure_ascii=False, indent=2)] *)
Definition json_dump (path : str) (data : list (gmap str jvalue)) : M unit :=
  lk <- get locked ;;
  if bool_decide (path ∈ lk) then raise OSError
  else
    now <- get clock ;;
    modify (fun st =>
      set_files (<[path := mkFile now None (Ok data)]> (files st)) st).

(** [reader = PdfReader(path)] and [page.extract_text()] for every page *)
Definition PdfReader_pages (path : str) : M (list str) :=
  fs <- get files ;;
  match fs !! path with
  | Some f =>
      match as_pdf f with
      | Some pages => ret pages
      | None => raise PdfReadError
      end
  | None => raise OSError
  end.

(** *** [pdf_utils.py] *)

Definition _get_file_mtime (filepath : str) : M Q :=
  e <- os_path_exists filepath ;;
  if e then os_path_getmtime filepath else ret 0%Q.

(** [Document(page_content=pc, metadata=md)]: the model validates the
    types of the two fields. *)
Definition Document_new (pc md : jvalue) : M Document :=
  match pc, md with
  | JStr s, JDict m => ret (mkDocument s m)
  | _, _ => raise ValidationError
  end.

(** [for item in data: documents.append(Document(...))] *)
Fixpoint load_items (data : list (gmap str jvalue))
    (documents : list Document) : M (list Document) :=
  match data with
  | [] => ret documents
  | item :: rest =>
      doc <- Document_new
               (default (JStr (lit "")) (item !! lit "page_content"))
               (default (JDict ∅) (item !! lit "metadata")) ;;
      load_items rest (documents ++ [doc])
  end.

(** The body of the [try] of [_load_from_json]. *)
Definition load_from_json_body : M (list Document) :=
  path <- get json_path ;;
  data <- json_load path ;;
  documents <- load_items data [] ;;
  print (Loaded_from_cache (length documents)) ;;
  ret documents.

Definition _load_from_json : M (list Document) :=
  try_except load_from_json_body
    (fun e => print (Error_loading_cache e) ;; ret []).

(** [data.append({"page_content": doc.page_content, "metadata":
    doc.metadata})] *)
Definition cache_entry (doc : Document) : gmap str jvalue :=
  {[ lit "page_content" := JStr (page_content doc);
     lit "metadata" := JDict (metadata doc) ]}.

Definition _save_to_json (documents : list Document) : M unit :=
  try_except
    (let data :=
       fold_left (fun data doc => data ++ [cache_entry doc]) documents [] in
     path <- get json_path ;;
     json_dump path data ;;
     print (Saved_to_cache (length documents)))
    (fun e => print (Error_saving_cache e)).

(** Step 3 of [load_and_index]: the index. *)
Definition build_index (documents : list Document) : M unit :=
  match documents with
  | _ :: _ =>
      vs <- provider (from_documents documents) ;;
      modify (set_vector_store (Some vs)) ;;
      print (Built_index (length documents))
  | [] => print No_documents_to_index
  end.

(** Step 2 of [load_and_index], entered when [documents] is empty, with
    step 3 after it. *)
Definition fresh_parse : M unit :=
  pdf_p <- get pdf_path ;;
  pdf_exists <- os_path_exists pdf_p ;;
  if negb pdf_exists then print (PDF_not_found pdf_p)
  else
    print Parsing_PDF ;;
    pages <- PdfReader_pages pdf_p ;;
    let raw_text := extract_raw_text pages in
    let lines := split [10] raw_text in
    let documents := parse_lines pdf_p lines [] in
    match documents with
    | _ :: _ => _save_to_json documents
    | [] => print No_content_parsed
    end ;;
    build_index documents.

Definition load_and_index : M unit :=
  pdf_p <- get pdf_path ;;
  json_p <- get json_path ;;
  pdf_mtime <- _get_file_mtime pdf_p ;;
  json_mtime <- _get_file_mtime json_p ;;
  pdf_exists <- os_path_exists pdf_p ;;
  json_exists <- os_path_exists json_p ;;
  documents <-
    (if pdf_exists && json_exists && Qle_bool pdf_mtime json_mtime then
       print Cache_valid ;; _load_from_json
     else ret []) ;;
  match documents with
  | [] => fresh_parse
  | _ :: _ => build_index documents
  end.

(** [for doc, score in docs: results.append({...})] *)
Definition hits_of (docs : list (Document * score)) : list Hit :=
  fold_left
    (fun results '(doc, sc) =>
       results ++ [mkHit (page_content doc) (metadata doc) sc])
    docs [].

Definition search_similar_features (query : str) (k : nat) : M (list Hit) :=
  vs <- get vector_store ;;
  match vs with None => load_and_index | Some _ => ret tt end ;;
  vs <- get vector_store ;;
  match vs with
  | None => ret []
  | Some store =>
      docs <- provider (similarity_search_with_score store query k) ;;
      ret (hits_of docs)
  end.

(** *** [main.py] *)

(** The three literal pieces of the f-string of the reason. *)
Definition reason_head : str :=
  [51077; 47141; 46108; 32; 53412; 50892; 46300; 50752; 32; 39].
Definition reason_mid : str := [39; 40; 44050; 58; 32].
Definition reason_tail : str :=
  [41; 32; 44036; 51032; 32; 50672; 44288; 49457; 51060; 32; 45458; 51020].

(** The body of [for res in search_results]. *)
Definition select_one (res : Hit) : SelectedFeature :=
  let meta := hit_metadata res in
  let cat := default (lit "") (meta !! lit "category") in
  let base_name := default (lit "Unknown_Feature") (meta !! lit "feature_name") in
  let feat_name := lit "[" ++ cat ++ lit "] " ++ base_name in
  let feat_desc := default (hit_raw_text res) (meta !! lit "description") in
  let feat_val := default (lit "0") (meta !! lit "value") in
  let reason :=
    reason_head ++ feat_desc ++ reason_mid ++ feat_val ++ reason_tail in
  mkSelectedFeature feat_name reason (hit_similarity_score res).

Definition search_query (plan : MarketingPlan) : str :=
  let keywords := split (lit ",") (campaign_keywords plan) ++ [product_name plan] in
  join (lit " ") keywords.

Definition select_features_semantically (plan : MarketingPlan)
  : M (list SelectedFeature) :=
  search_results <- search_similar_features (search_query plan) 10 ;;
  ret (fold_left (fun results res => results ++ [select_one res])
         search_results []).


(** *** Notions of the specification *)

(** What a call prints. *)
Definition printed {A} (m : M A) (st : state) : list message :=
  drop (length (stdout st)) (stdout (m st).2).

(** The state after some more lines of output. *)
Definition say (out : list message) (st : state) : state :=
  set_stdout (stdout st ++ out) st.

(** The modification time of a file, [0.0] for a missing one. *)
Definition file_mtime (st : state) (path : str) : Q :=
  match files st !! path with
  | Some f => mtime f
  | None => 0%Q
  end.

(** The cache validity policy: the source document exists, the cache
    file exists, and the cache is not older than the source. *)
Definition cache_valid (st : state) : bool :=
  bool_decide (is_Some (files st !! pdf_path st))
  && bool_decide (is_Some (files st !! json_path st))
  && Qle_bool (file_mtime st (pdf_path st)) (file_mtime st (json_path st)).

(** The records that a load of the cache gives. *)
Definition cached_documents (st : state) : list Document :=
  match (_load_from_json st).1 with
  | Ok documents => documents
  | Raise _ => []
  end.

(** [load_and_index] skips the parse and loads records from the cache. *)
Definition skips_parse_and_loads_cache (st : state) : Prop :=
  (Parsing_PDF ∉ printed load_and_index st) /\
  (exists n, Loaded_from_cache n ∈ printed load_and_index st).

(** [_save_to_json] was called. *)
Definition save_attempted (out : list message) : Prop :=
  exists msg, msg ∈ out /\
    ((exists n, msg = Saved_to_cache n) \/ (exists e, msg = Error_saving_cache e)).

(** A sequence of calls, one after the other. *)
Fixpoint for_each {A B} (f : A -> M B) (l : list A) : M (list B) :=
  match l with
  | [] => ret []
  | a :: l' => b <- f a ;; bs <- for_each f l' ;; ret (b :: bs)
  end.

(** A new loader over the same files and output, as [FeatureEngine()]
    makes one on every run of [main]. *)
Definition new_loader (st : state) : state := set_vector_store None st.

(** From [st] to [st'] the loader keeps its paths, the clock and the
    write locks are the same, and no file but the one at the cache path
    is different. *)
Definition only_cache_changed (st st' : state) : Prop :=
  pdf_path st' = pdf_path st /\ json_path st' = json_path st /\
  locked st' = locked st /\ clock st' = clock st /\
  forall path, path <> json_path st -> files st' !! path = files st !! path.

(** *** Sample states *)

Definition sample_pdf : str := lit "featurelist.pdf".
Definition sample_json : str := lit "featurelist.json".

Definition sample_row : str :=
  lit "ID: App Launch Frequency #001 | CAT: Digital Engagement | DESC: launches per day | VAL: 42".

Definition sample_pages : list str :=
  [lit "Marketing Feature Dictionary" ++ [10] ++ lit "Feature Info" ++ [10]
     ++ sample_row].

(** A source document and an older cache that does not decode. *)
Definition state_corrupt_cache : state :=
  init sample_pdf sample_json
    {[ sample_pdf := mkFile 1 (Some sample_pages) (Raise JSONDecodeError);
       sample_json := mkFile 2 None (Raise JSONDecodeError) ]}
    ∅ 3.

(** No source document at all. *)
Definition state_no_pdf : state :=
  init sample_pdf sample_json
    {[ sample_json := mkFile 2 None (Ok []) ]} ∅ 3.

(** A source document without a single feature row, and no cache. *)
Definition state_no_rows : state :=
  init sample_pdf sample_json
    {[ sample_pdf :=
         mkFile 1 (Some [lit "Marketing Feature Dictionary"])
           (Raise JSONDecodeError) ]}
    ∅ 3.

(** A source document and no cache. *)
Definition state_no_cache : state :=
  init sample_pdf sample_json
    {[ sample_pdf := mkFile 1 (Some sample_pages) (Raise JSONDecodeError) ]}
    ∅ 3.

Definition sample_plan : MarketingPlan :=
  mkMarketingPlan (lit "headset") (lit "2024-01-01") 120 [] (lit "all") 20 50
    (lit "audio, wireless").


(** More sample states: a source document that the reader rejects; a
    valid cache of two entries, the second without metadata; the same
    with a third entry whose text is not a string. *)
Definition state_unreadable_pdf : state :=
  init sample_pdf sample_json
    {[ sample_pdf := mkFile 1 None (Raise JSONDecodeError) ]} ∅ 3.

Definition sample_entries : list (gmap str jvalue) :=
  [ {[ lit "page_content" := JStr sample_row;
       lit "metadata" := JDict {[ lit "category" := lit "Digital Engagement" ]} ]};
    {[ lit "page_content" := JStr (lit "free text") ]} ].

Definition state_good_cache : state :=
  init sample_pdf sample_json
    {[ sample_pdf := mkFile 1 (Some sample_pages) (Raise JSONDecodeError);
       sample_json := mkFile 2 None (Ok sample_entries) ]} ∅ 3.

Definition state_bad_cache : state :=
  init sample_pdf sample_json
    {[ sample_pdf := mkFile 1 (Some sample_pages) (Raise JSONDecodeError);
       sample_json :=
         mkFile 2 None
           (Ok (sample_entries ++ [ {[ lit "page_content" := JOther ]} ])) ]}
    ∅ 3.

(** * Properties *)

(** Membership in a list that is written out. *)
Local Ltac found :=
  simpl;
  solve [repeat first [apply list_elem_of_here | apply list_elem_of_further]].

(** ** Python strings: [cut], [contains], [split] and [join] *)

Lemma after_prefix_Some (p s r : str) :
  after_prefix p s = Some r <-> s = p ++ r.
Proof.
  revert s. induction p as [|a p IH]; intros s; simpl.
  - split; intros H; by simplify_eq.
  - destruct s as [|b s]; [by split|].
    destruct (N.eqb_spec a b) as [->|Hne].
    + rewrite IH. split; intros H; by simplify_eq.
    + split; intros H; by simplify_eq.
Qed.

(** [cut] finds an occurrence of the separator. *)
Lemma cut_Some (sep s a b : str) :
  cut sep s = Some (a, b) -> s = a ++ sep ++ b.
Proof.
  revert a b. induction s as [|c s IH]; intros a b; simpl.
  - destruct (after_prefix sep []) as [r|] eqn:E; [|done].
    apply after_prefix_Some in E. intros; by simplify_eq.
  - destruct (after_prefix sep (c :: s)) as [r|] eqn:E.
    + apply after_prefix_Some in E. intros; by simplify_eq.
    + destruct (cut sep s) as [[a' b']|] eqn:Ec; [|done].
      intros ?; simplify_eq. by rewrite (IH a' b).
Qed.

(** The occurrence [cut] finds is the leftmost one. *)
Lemma cut_leftmost (sep s a b a' b' : str) :
  cut sep s = Some (a, b) -> s = a' ++ sep ++ b' -> (length a <= length a')%nat.
Proof.
  revert a b a'. induction s as [|c s IH]; intros a b a'; simpl.
  - destruct (after_prefix sep []) as [r|] eqn:E; [|done].
    intros; simplify_eq; simpl; lia.
  - destruct (after_prefix sep (c :: s)) as [r|] eqn:E.
    + intros; simplify_eq; simpl; lia.
    + destruct (cut sep s) as [[a0 b0]|] eqn:Ec; [|done].
      intros ? Hs; simplify_eq. destruct a' as [|c' a']; simpl in *.
      * assert (after_prefix sep (c :: s) = Some b') as E'
          by (by apply after_prefix_Some). congruence.
      * simplify_eq. specialize (IH a0 b a' eq_refl eq_refl). lia.
Qed.

(** [cut] fails only when the separator does not occur. *)
Lemma cut_None (sep s a b : str) :
  cut sep s = None -> s <> a ++ sep ++ b.
Proof.
  revert a. induction s as [|c s IH]; intros a; simpl.
  - destruct (after_prefix sep []) as [r|] eqn:E; [done|].
    intros _ Hs. destruct a; simpl in *; [|done].
    symmetry in Hs. assert (after_prefix sep [] = Some b) as E'
      by (apply after_prefix_Some; by rewrite Hs). congruence.
  - destruct (after_prefix sep (c :: s)) as [r|] eqn:E; [done|].
    destruct (cut sep s) as [[a0 b0]|] eqn:Ec; [done|].
    intros _ Hs. destruct a as [|c' a]; simpl in *.
    + assert (after_prefix sep (c :: s) = Some b) as E'
        by (by apply after_prefix_Some). congruence.
    + simplify_eq. by eapply IH.
Qed.

Lemma contains_true (sub s : str) :
  contains sub s = true <-> exists a b, s = a ++ sub ++ b.
Proof.
  unfold contains. destruct (cut sub s) as [[a b]|] eqn:E.
  - split; [|done]. intros _. exists a, b. by apply cut_Some.
  - split; [done|]. intros (a & b & Hs). by apply (cut_None _ _ a b) in E.
Qed.

Lemma contains_false (sub s : str) :
  contains sub s = false <-> forall a b, s <> a ++ sub ++ b.
Proof.
  rewrite <-not_true_iff_false, contains_true.
  split; [intros H a b Hs; apply H; eauto | intros H (a & b & Hs); by eapply H].
Qed.

(** The text before the cut holds no separator. *)
Lemma cut_before (sep s a b : str) :
  sep <> [] -> cut sep s = Some (a, b) -> contains sep a = false.
Proof.
  intros Hsep Hc. apply contains_false. intros x y ->.
  pose proof (cut_Some _ _ _ _ Hc) as Hs.
  assert (length ((x ++ sep ++ y)) <= length x)%nat as Hlen.
  { eapply cut_leftmost; [exact Hc|]. rewrite Hs, <-!app_assoc. done. }
  rewrite !length_app in Hlen. destruct sep; [done|]. simpl in Hlen. lia.
Qed.

Lemma cut_shorter (sep s a b : str) :
  sep <> [] -> cut sep s = Some (a, b) -> (length b < length s)%nat.
Proof.
  intros Hsep Hc. apply cut_Some in Hc as ->. rewrite !length_app.
  destruct sep; [done|]. simpl. lia.
Qed.

Lemma splitn_nonempty (n : nat) (sep s : str) : splitn n sep s <> [].
Proof. destruct n; simpl; [done|]. by destruct (cut sep s) as [[??]|]. Qed.

(** Joining the pieces with the separator gives the text back. *)
Lemma join_splitn (n : nat) (sep s : str) : join sep (splitn n sep s) = s.
Proof.
  revert s. induction n as [|n IH]; intros s; simpl; [done|].
  destruct (cut sep s) as [[a b]|] eqn:E; [|done].
  pose proof (splitn_nonempty n sep b) as Hne. specialize (IH b).
  destruct (splitn n sep b) as [|x l]; [done|].
  change (join sep (a :: x :: l)) with (a ++ sep ++ join sep (x :: l)).
  rewrite IH. symmetry. by apply cut_Some.
Qed.

Lemma join_split (sep s : str) : join sep (split sep s) = s.
Proof. apply join_splitn. Qed.

(** The model against the interpreter: ["aaaaa".split("aa")],
    ["".split(",")], ["k: v: w".split(":", 1)], ["x".split(":", 1)] and
    [" \t a b \n".strip()]. *)
Example split_overlapping :
  split (lit "aa") (lit "aaaaa") = [lit ""; lit ""; lit "a"].
Proof. reflexivity. Qed.

Example split_empty : split (lit ",") (lit "") = [lit ""].
Proof. reflexivity. Qed.

Example splitn_first_colon :
  splitn 1 (lit ":") (lit "k: v: w") = [lit "k"; lit " v: w"].
Proof. reflexivity. Qed.

Example splitn_no_colon : splitn 1 (lit ":") (lit "x") = [lit "x"].
Proof. reflexivity. Qed.

Example strip_both_ends : strip ([32; 9; 32] ++ lit "a b" ++ [32; 10]) = lit "a b".
Proof. reflexivity. Qed.

(** With [length s] cuts allowed no separator is left in any piece:
    [split] is the unlimited split. *)
Lemma splitn_pieces (n : nat) (sep s : str) :
  sep <> [] -> (length s <= n)%nat ->
  Forall (fun p => contains sep p = false) (splitn n sep s).
Proof.
  intros Hsep. revert s. induction n as [|n IH]; intros s Hn; simpl.
  - destruct s; [|simpl in Hn; lia]. constructor; [|done].
    apply contains_false. intros a b Hs. symmetry in Hs.
    apply app_eq_nil in Hs as [_ Hs]. apply app_eq_nil in Hs as [? _]. done.
  - destruct (cut sep s) as [[a b]|] eqn:E.
    + constructor; [by eapply cut_before|]. apply IH.
      pose proof (cut_shorter _ _ _ _ Hsep E). lia.
    + constructor; [|done]. unfold contains. by rewrite E.
Qed.

Lemma split_pieces (sep s : str) :
  sep <> [] -> Forall (fun p => contains sep p = false) (split sep s).
Proof. intros. by apply splitn_pieces. Qed.

(** More cuts than [length s] change nothing. *)
Lemma splitn_more (n m : nat) (sep s : str) :
  sep <> [] -> (length s <= n)%nat -> (length s <= m)%nat ->
  splitn n sep s = splitn m sep s.
Proof.
  intros Hsep. revert m s. induction n as [|n IH]; intros m s Hn Hm.
  - destruct s; [|simpl in Hn; lia]. destruct m; cbn [splitn]; [done|].
    destruct (cut sep []) as [[a b]|] eqn:E; [|done].
    apply cut_shorter in E; [simpl in E; lia|done].
  - cbn [splitn]. destruct (cut sep s) as [[a b]|] eqn:E.
    + pose proof (cut_shorter _ _ _ _ Hsep E).
      destruct m; [lia|]. cbn [splitn]. rewrite E. f_equal. apply IH; lia.
    + destruct m; cbn [splitn]; [done|]. by rewrite E.
Qed.

(** ** The document parser *)

Lemma foldl_insert_list_to_map (l : list (str * str)) (m : gmap str str) :
  foldl (fun m kv => <[kv.1 := kv.2]> m) m l = list_to_map (rev l) ∪ m.
Proof.
  revert m. induction l as [|[k v] l IH]; intros m; simpl.
  - by rewrite (left_id_L ∅ (∪)).
  - rewrite IH, list_to_map_app. simpl.
    rewrite <-(assoc_L (∪)), insert_empty, <-insert_union_singleton_l. done.
Qed.

(** The unpacking [key, val = p.split(":", 1)] never fails under the
    guard [":" in p], so [parse_fields] never raises. *)
Lemma parse_fields_Ok (parts : list str) (meta : gmap str str) :
  parse_fields parts meta =
    Ok (foldl (fun m kv => <[kv.1 := kv.2]> m) meta (omap key_value parts)).
Proof.
  revert meta. induction parts as [|p parts IH]; intros meta; [done|].
  cbn [parse_fields omap list_omap]. unfold contains, key_value. cbn [splitn].
  destruct (cut (lit ":") p) as [[k v]|] eqn:E; cbn [unpack2 foldl]; apply IH.
Qed.

Lemma parse_fields_field_mapping (line : str) :
  parse_fields (split (lit " | ") line) ∅ = Ok (field_mapping line).
Proof.
  rewrite parse_fields_Ok, foldl_insert_list_to_map.
  by rewrite (right_id_L ∅ (∪)).
Qed.

Lemma parse_row_Ok (pdf_path line : str) :
  parse_row pdf_path line =
    Ok (mkDocument line
          {[ lit "source" := pdf_path;
             lit "feature_name" :=
               default (lit "Unknown") (field_mapping line !! lit "ID");
             lit "category" := default (lit "") (field_mapping line !! lit "CAT");
             lit "description" :=
               default (lit "") (field_mapping line !! lit "DESC");
             lit "value" := default (lit "0") (field_mapping line !! lit "VAL") ]}).
Proof. unfold parse_row. by rewrite parse_fields_field_mapping. Qed.

Lemma parse_lines_acc (pdf_path : str) (lines : list str)
    (documents : list Document) :
  parse_lines pdf_path lines documents =
    documents ++ parse_lines pdf_path lines [].
Proof.
  revert documents. induction lines as [|line lines IH]; intros documents.
  - simpl. by rewrite app_nil_r.
  - cbn [parse_lines].
    destruct (contains (lit "ID: ") line && contains (lit " | ") line);
      [|apply IH].
    destruct (parse_row pdf_path line) as [doc|e]; [|apply IH].
    rewrite (IH (documents ++ [doc])), (IH ([] ++ [doc])).
    by rewrite <-!app_assoc.
Qed.

Lemma parse_lines_app (pdf_path : str) (l1 l2 : list str) :
  parse_lines pdf_path (l1 ++ l2) [] =
    parse_lines pdf_path l1 [] ++ parse_lines pdf_path l2 [].
Proof.
  induction l1 as [|line l1 IH]; [done|].
  cbn [app parse_lines].
  destruct (contains (lit "ID: ") line && contains (lit " | ") line);
    [|apply IH].
  destruct (parse_row pdf_path line) as [doc|e]; [|apply IH].
  rewrite (parse_lines_acc _ (l1 ++ l2)), (parse_lines_acc _ l1), IH.
  by rewrite <-!app_assoc.
Qed.

(** What one line contributes. *)
Lemma parse_lines_one (pdf_path line : str) :
  parse_lines pdf_path [line] [] =
    if contains (lit "ID: ") line && contains (lit " | ") line then
      match parse_row pdf_path line with Ok doc => [doc] | Raise _ => [] end
    else [].
Proof.
  cbn [parse_lines].
  destruct (contains (lit "ID: ") line && contains (lit " | ") line); [|done].
  by destruct (parse_row pdf_path line).
Qed.

Lemma structured_field_lookup (pdf_path line key field dflt : str) :
  (key, field, dflt) ∈ structured_fields ->
  forall doc, parse_row pdf_path line = Ok doc ->
  metadata doc !! field = Some (default dflt (field_mapping line !! key)).
Proof.
  intros Hin doc. rewrite parse_row_Ok. intros [= <-]. cbn [metadata].
  unfold structured_fields in Hin.
  repeat (apply elem_of_cons in Hin as [[= -> -> ->]|Hin]); [..|by inversion Hin];
    by vm_compute.
Qed.

(** The example row of the specification. *)
Example sample_row_parsed :
  exists doc,
    parse_lines sample_pdf [sample_row] [] = [doc] /\
    page_content doc = sample_row /\
    metadata doc !! lit "feature_name" = Some (lit "App Launch Frequency #001") /\
    metadata doc !! lit "category" = Some (lit "Digital Engagement") /\
    metadata doc !! lit "description" = Some (lit "launches per day") /\
    metadata doc !! lit "value" = Some (lit "42") /\
    metadata doc !! lit "source" = Some sample_pdf.
Proof. eexists. split; [reflexivity|]. repeat split. Qed.

(** C1. Every line that holds both ["ID: "] and [" | "] gives exactly one
    record, in its place among the records of the other lines; the
    record keeps the line as its text, and each structured field is the
    value of its key in the field mapping of the line, or the default of
    the field when the key is absent.  A line that lacks either gives no
    record. *)
Theorem parser_one_record_per_row (pdf_path : str) (before after : list str)
    (line : str) :
  exists row,
    parse_lines pdf_path (before ++ line :: after) [] =
      parse_lines pdf_path before [] ++ row ++ parse_lines pdf_path after []
    /\ if contains (lit "ID: ") line && contains (lit " | ") line then
         exists doc,
           row = [doc] /\ page_content doc = line /\
           parse_fields (split (lit " | ") line) ∅ = Ok (field_mapping line) /\
           metadata doc !! lit "feature_name" =
             Some (default (lit "Unknown") (field_mapping line !! lit "ID")) /\
           metadata doc !! lit "category" =
             Some (default (lit "") (field_mapping line !! lit "CAT")) /\
           metadata doc !! lit "description" =
             Some (default (lit "") (field_mapping line !! lit "DESC")) /\
           metadata doc !! lit "value" =
             Some (default (lit "0") (field_mapping line !! lit "VAL"))
       else row = [].
Proof.
  exists (parse_lines pdf_path [line] []). split.
  - change (line :: after) with ([line] ++ after).
    by rewrite !parse_lines_app.
  - rewrite parse_lines_one.
    destruct (contains (lit "ID: ") line && contains (lit " | ") line); [|done].
    pose proof (parse_row_Ok pdf_path line) as Hrow.
    destruct (parse_row pdf_path line) as [doc|e] eqn:E; [|done].
    exists doc. split; [done|].
    split; [by simplify_eq|].
    split; [apply parse_fields_field_mapping|].
    repeat split;
      (eapply structured_field_lookup; [|exact E]);
      unfold structured_fields; set_solver.
Qed.

Lemma key_value_None (p : str) :
  contains (lit ":") p = false <-> key_value p = None.
Proof.
  unfold contains, key_value. by destruct (cut (lit ":") p) as [[??]|].
Qed.

Lemma field_mapping_None (line key : str) :
  (forall p k v, p ∈ split (lit " | ") line -> key_value p = Some (k, v) ->
     k <> key) ->
  field_mapping line !! key = None.
Proof.
  intros H. unfold field_mapping. apply not_elem_of_list_to_map_1.
  intros Hin. apply list_elem_of_fmap in Hin as ([k v] & -> & Hin).
  apply list_elem_of_In, in_rev, list_elem_of_In in Hin.
  apply list_elem_of_omap in Hin as (p & Hp & Hkv).
  by eapply H.
Qed.

(** C7. A segment without a colon leaves the field mapping as it is
    without it; the row that holds both markers is parsed into one
    record all the same, whose structured fields come from the segments
    that do hold a colon, a field whose key no such segment gives taking
    its default; and a row gives no record exactly when it lacks
    ["ID: "] or [" | "]. *)
Theorem colonless_segment_is_omitted (pdf_path line : str) :
  contains (lit "ID: ") line = true -> contains (lit " | ") line = true ->
  (forall parts1 p parts2 meta,
     contains (lit ":") p = false ->
     parse_fields (parts1 ++ p :: parts2) meta =
       parse_fields (parts1 ++ parts2) meta) /\
  (exists doc,
     parse_lines pdf_path [line] [] = [doc] /\ page_content doc = line /\
     parse_fields (filter (fun p => contains (lit ":") p = true)
                     (split (lit " | ") line)) ∅ = Ok (field_mapping line) /\
     forall key field dflt, (key, field, dflt) ∈ structured_fields ->
       metadata doc !! field =
         Some (default dflt (field_mapping line !! key)) /\
       ((forall p k v, p ∈ split (lit " | ") line ->
           key_value p = Some (k, v) -> k <> key) ->
        metadata doc !! field = Some dflt)) /\
  (forall other,
     parse_lines pdf_path [other] [] = [] <->
     contains (lit "ID: ") other = false \/ contains (lit " | ") other = false).
Proof.
  intros Hid Hbar.
  assert (forall parts meta,
            parse_fields (filter (fun p => contains (lit ":") p = true) parts)
              meta = parse_fields parts meta) as Hfilter.
  { induction parts as [|p parts IH]; intros meta; [done|].
    rewrite filter_cons. destruct (decide (contains (lit ":") p = true)) as [Hp|Hp].
    - cbn [parse_fields]. rewrite Hp.
      destruct (unpack2 (splitn 1 (lit ":") p)) as [[k v]|e]; [apply IH|done].
    - cbn [parse_fields]. apply not_true_is_false in Hp. rewrite Hp. apply IH. }
  split; [|split].
  - intros parts1 p parts2 meta Hp. rewrite !parse_fields_Ok.
    rewrite !omap_app. cbn [omap list_omap].
    apply key_value_None in Hp. by rewrite Hp.
  - rewrite parse_lines_one, Hid, Hbar. cbn [andb].
    destruct (parse_row pdf_path line) as [doc|e] eqn:E;
      [|by rewrite parse_row_Ok in E].
    exists doc. split; [done|]. split.
    { rewrite parse_row_Ok in E. by simplify_eq. }
    split; [rewrite Hfilter; apply parse_fields_field_mapping|].
    intros key field dflt Hin.
    pose proof (structured_field_lookup _ _ _ _ _ Hin doc E) as Hf.
    split; [done|]. intros Hno. by rewrite Hf, field_mapping_None.
  - intros other. rewrite parse_lines_one, parse_row_Ok.
    destruct (contains (lit "ID: ") other), (contains (lit " | ") other);
      cbn [andb]; split; intros H; try done; try (by left); try (by right);
      by destruct H.
Qed.

Lemma replace_id (c d : N) (a : str) :
  contains [c] a = false -> (fun x => if x =? c then d else x) <$> a = a.
Proof.
  rewrite contains_false. induction a as [|x a IH]; intros H; [done|].
  rewrite fmap_cons. destruct (N.eqb_spec x c) as [->|Hne].
  - by destruct (H [] a).
  - f_equal. apply IH. intros u v ->. by apply (H (x :: u) v).
Qed.

(** Joining the pieces of a split on one character with another
    character replaces the one by the other. *)
Lemma join_splitn_replace (c d : N) (n : nat) (s : str) :
  (length s <= n)%nat ->
  join [d] (splitn n [c] s) = (fun x => if x =? c then d else x) <$> s.
Proof.
  revert s. induction n as [|n IH]; intros s Hn.
  - by destruct s; [|simpl in Hn; lia].
  - cbn [splitn]. destruct (cut [c] s) as [[a b]|] eqn:E.
    + assert ([c] <> []) as Hc by done.
      pose proof (cut_shorter _ _ _ _ Hc E) as Hlt.
      pose proof (cut_before _ _ _ _ Hc E) as Ha.
      pose proof (splitn_nonempty n [c] b) as Hne.
      specialize (IH b ltac:(lia)).
      destruct (splitn n [c] b) as [|x l]; [done|].
      change (join [d] (a :: x :: l)) with (a ++ [d] ++ join [d] (x :: l)).
      rewrite IH. apply cut_Some in E as ->.
      rewrite !fmap_app, (replace_id c d a Ha). simpl.
      by rewrite N.eqb_refl.
    + simpl. symmetry. apply replace_id. unfold contains. by rewrite E.
Qed.

Lemma join_snoc (sep : str) (l : list str) (x : str) :
  l <> [] -> join sep (l ++ [x]) = join sep l ++ sep ++ x.
Proof.
  induction l as [|y l IH]; [done|]. intros _.
  destruct l as [|z l]; [done|].
  change (join sep ((y :: z :: l) ++ [x]))
    with (y ++ sep ++ join sep ((z :: l) ++ [x])).
  rewrite IH by done.
  change (join sep (y :: z :: l)) with (y ++ sep ++ join sep (z :: l)).
  by rewrite <-!app_assoc.
Qed.

(** C9. The query is the keyword terms followed by the product name,
    with one space between two terms; the keyword terms are the pieces of
    the keyword string between its commas, so the query is the keyword
    string with a space for every comma, a space, and the product name. *)
Theorem query_joins_terms_with_single_spaces (plan : MarketingPlan) :
  let terms := split (lit ",") (campaign_keywords plan) in
  search_query plan = join (lit " ") (terms ++ [product_name plan]) /\
  join (lit ",") terms = campaign_keywords plan /\
  Forall (fun t => contains (lit ",") t = false) terms /\
  search_query plan =
    ((fun c => if c =? 44 then 32 else c) <$> campaign_keywords plan)
      ++ lit " " ++ product_name plan.
Proof.
  intros terms. split; [done|]. split; [apply join_split|].
  split; [by apply split_pieces|].
  unfold search_query. fold terms.
  rewrite join_snoc by apply splitn_nonempty. f_equal.
  by apply (join_splitn_replace 44 32).
Qed.

(** ** The monad and the file system *)

Lemma fold_left_snoc {A B} (f : A -> B) (l : list A) (acc : list B) :
  fold_left (fun acc x => acc ++ [f x]) l acc = acc ++ (f <$> l).
Proof.
  revert acc. induction l as [|x l IH]; intros acc; simpl.
  - by rewrite app_nil_r.
  - by rewrite IH, <-app_assoc.
Qed.

Lemma say_say (out1 out2 : list message) (st : state) :
  say out2 (say out1 st) = say (out1 ++ out2) st.
Proof. unfold say, set_stdout. simpl. by rewrite app_assoc. Qed.

Lemma printed_say {A} (m : M A) (st : state) (r : result A) (st' : state)
    (out : list message) :
  m st = (r, st') -> stdout st' = stdout st ++ out -> printed m st = out.
Proof.
  intros Hm Hout. unfold printed. rewrite Hm. simpl.
  by rewrite Hout, drop_app_length.
Qed.

Lemma os_path_exists_run (path : str) (st : state) :
  os_path_exists path st = (Ok (bool_decide (is_Some (files st !! path))), st).
Proof. done. Qed.

Lemma _get_file_mtime_run (filepath : str) (st : state) :
  _get_file_mtime filepath st = (Ok (file_mtime st filepath), st).
Proof.
  unfold _get_file_mtime, os_path_getmtime, file_mtime, bind, os_path_exists,
    get, ret, raise.
  destruct (files st !! filepath) as [f|] eqn:E; simpl; by rewrite ?E.
Qed.

(** ** The cache store *)

(** The loop over the entries leaves the state alone. *)
Lemma load_items_state (data : list (gmap str jvalue))
    (documents : list Document) (st : state) :
  (load_items data documents st).2 = st.
Proof.
  revert documents. induction data as [|item data IH]; intros documents; [done|].
  cbn [load_items]. unfold bind, Document_new.
  destruct (default (JStr (lit "")) (item !! lit "page_content"));
    try done.
  destruct (default (JDict ∅) (item !! lit "metadata")); try done.
  unfold ret. simpl. apply IH.
Qed.

Lemma load_items_stdout (data : list (gmap str jvalue))
    (documents : list Document) (out : list message) (st : state) :
  (load_items data documents (set_stdout out st)).1 =
    (load_items data documents st).1.
Proof.
  revert documents. induction data as [|item data IH]; intros documents; [done|].
  cbn [load_items]. unfold bind, Document_new.
  destruct (default (JStr (lit "")) (item !! lit "page_content"));
    try done.
  destruct (default (JDict ∅) (item !! lit "metadata")); try done.
  unfold ret. simpl. apply IH.
Qed.

(** The body of the [try] prints only when it succeeds. *)
Lemma load_from_json_body_run (st : state) :
  (exists documents,
     load_from_json_body st =
       (Ok documents, say [Loaded_from_cache (length documents)] st)) \/
  (exists e, load_from_json_body st = (Raise e, st)).
Proof.
  unfold load_from_json_body, json_load, bind, get, lift, raise.
  destruct (files st !! json_path st) as [f|]; [|right; by eexists].
  destruct (as_json f) as [data|e]; [|right; by eexists].
  pose proof (load_items_state data [] st) as Hst.
  destruct (load_items data [] st) as [[documents|e] st1]; simpl in Hst;
    subst st1; [left|right]; by eexists.
Qed.

(** [_load_from_json] never raises. *)
Lemma _load_from_json_run (st : state) :
  (exists documents,
     load_from_json_body st =
       (Ok documents, say [Loaded_from_cache (length documents)] st) /\
     _load_from_json st =
       (Ok documents, say [Loaded_from_cache (length documents)] st)) \/
  (exists e,
     load_from_json_body st = (Raise e, st) /\
     _load_from_json st = (Ok [], say [Error_loading_cache e] st)).
Proof.
  unfold _load_from_json, try_except.
  destruct (load_from_json_body_run st) as [[documents H]|[e H]]; rewrite H;
    [left|right]; by eexists.
Qed.

Lemma load_from_json_body_stdout (out : list message) (st : state) :
  (load_from_json_body (set_stdout out st)).1 = (load_from_json_body st).1.
Proof.
  unfold load_from_json_body, json_load, bind, get, lift, raise. cbn [files set_stdout json_path].
  destruct (files st !! json_path st) as [f|]; [|done].
  destruct (as_json f) as [data|e]; [|done].
  pose proof (load_items_stdout data [] out st) as H.
  destruct (load_items data [] (set_stdout out st)) as [[d1|e1] s1],
    (load_items data [] st) as [[d2|e2] s2]; simpl in H; by simplify_eq.
Qed.

Lemma cached_documents_say (out : list message) (st : state) :
  cached_documents (say out st) = cached_documents st.
Proof.
  unfold cached_documents, _load_from_json, try_except, say.
  pose proof (load_from_json_body_stdout (stdout st ++ out) st) as H.
  destruct (load_from_json_body (set_stdout _ st)) as [[d1|e1] s1],
    (load_from_json_body st) as [[d2|e2] s2]; simpl in H; by simplify_eq.
Qed.

Lemma _load_from_json_cached (st : state) :
  exists out, _load_from_json st = (Ok (cached_documents st), say out st) /\
    ((out = [Loaded_from_cache (length (cached_documents st))]) \/
     (cached_documents st = [] /\ exists e, out = [Error_loading_cache e])).
Proof.
  unfold cached_documents.
  destruct (_load_from_json_run st) as [(docs & _ & H)|(e & _ & H)]; rewrite H;
    eexists; (split; [done|]); [by left|right; split; [done|by eexists]].
Qed.

Lemma _save_to_json_run (documents : list Document) (st : state) :
  _save_to_json documents st =
    if bool_decide (json_path st ∈ locked st) then
      (Ok tt, say [Error_saving_cache OSError] st)
    else
      (Ok tt,
       say [Saved_to_cache (length documents)]
         (set_files
            (<[json_path st :=
                 mkFile (clock st) None (Ok (cache_entry <$> documents))]>
               (files st)) st)).
Proof.
  unfold _save_to_json, try_except, json_dump, bind, get, raise, modify, print.
  rewrite fold_left_snoc. cbn [app].
  by destruct (bool_decide (json_path st ∈ locked st)).
Qed.

(** ** The index *)

Lemma build_index_run (documents : list Document) (st : state) :
  build_index documents st =
    match documents with
    | [] => (Ok tt, say [No_documents_to_index] st)
    | _ :: _ =>
        match from_documents documents with
        | Some vs =>
            (Ok tt,
             say [Built_index (length documents)]
               (set_vector_store (Some vs) st))
        | None => (Raise ProviderError, st)
        end
    end.
Proof.
  destruct documents as [|doc documents]; [done|].
  unfold build_index, bind, provider, modify, print.
  by destruct (from_documents (doc :: documents)).
Qed.

(** The records that a parse of the source document gives. *)
Lemma fresh_parse_run (st : state) :
  fresh_parse st =
    match files st !! pdf_path st with
    | None => (Ok tt, say [PDF_not_found (pdf_path st)] st)
    | Some f =>
        match as_pdf f with
        | None => (Raise PdfReadError, say [Parsing_PDF] st)
        | Some pages =>
            let documents :=
              parse_lines (pdf_path st) (split [10] (extract_raw_text pages)) [] in
            match documents with
            | [] =>
                (Ok tt,
                 say [Parsing_PDF; No_content_parsed; No_documents_to_index] st)
            | _ :: _ =>
                match _save_to_json documents (say [Parsing_PDF] st) with
                | (_, st1) => build_index documents st1
                end
            end
        end
    end.
Proof.
  unfold fresh_parse, bind at 1 2, get. rewrite os_path_exists_run.
  destruct (files st !! pdf_path st) as [f|] eqn:Ef; [|done].
  cbn [negb bool_decide decide_rel is_Some_dec].
  unfold bind at 1, print at 1, modify. fold (say [Parsing_PDF] st).
  unfold bind at 1, PdfReader_pages, bind at 1, get. cbn [files say set_stdout].
  rewrite Ef. destruct (as_pdf f) as [pages|]; [|done].
  unfold ret at 1. cbv zeta. cbn [pdf_path].
  destruct (parse_lines _ _ _) as [|doc documents] eqn:Ep.
  - unfold bind, build_index, print, modify, say, set_stdout. simpl.
    unfold print, modify, set_stdout. simpl. by rewrite <-!app_assoc.
  - unfold bind at 1. rewrite _save_to_json_run.
    by destruct (bool_decide _).
Qed.

(** ** [load_and_index] *)

Lemma cache_valid_say (out : list message) (st : state) :
  cache_valid (say out st) = cache_valid st.
Proof. done. Qed.

(** The three ways through [load_and_index]. *)
Lemma load_and_index_run (st : state) :
  load_and_index st =
    if cache_valid st then
      match _load_from_json (say [Cache_valid] st) with
      | (Ok [], st1) => fresh_parse st1
      | (Ok (doc :: documents), st1) => build_index (doc :: documents) st1
      | (Raise e, st1) => (Raise e, st1)
      end
    else fresh_parse st.
Proof.
  cbv beta iota delta [load_and_index bind get].
  rewrite !_get_file_mtime_run. cbv beta iota.
  rewrite !os_path_exists_run. cbv beta iota.
  fold (cache_valid st). destruct (cache_valid st); [|done].
  unfold print, modify. cbv beta iota. fold (say [Cache_valid] st).
  by destruct (_load_from_json (say [Cache_valid] st)) as [[[|doc docs]|e] st1].
Qed.

Lemma load_and_index_cached (st : state) :
  cache_valid st = true -> cached_documents st <> [] ->
  exists n,
    load_and_index st =
      build_index (cached_documents st)
        (say [Cache_valid; Loaded_from_cache n] st).
Proof.
  intros Hv Hne. rewrite load_and_index_run, Hv.
  destruct (_load_from_json_cached (say [Cache_valid] st)) as (out & H & Hout).
  rewrite cached_documents_say in H, Hout. rewrite H, say_say.
  destruct Hout as [->|[? _]]; [|done].
  destruct (cached_documents st); [done|]. by eexists.
Qed.

Lemma load_and_index_fresh (st : state) :
  cache_valid st = false \/ cached_documents st = [] ->
  exists out,
    load_and_index st = fresh_parse (say out st) /\
    (Parsing_PDF ∉ out) /\
    (forall msg, save_attempted [msg] -> msg ∉ out) /\
    (cache_valid st = true -> Cache_valid ∈ out) /\
    (cache_valid st = false -> out = []).
Proof.
  intros Hf. rewrite load_and_index_run.
  destruct (cache_valid st) eqn:Hv.
  - destruct Hf as [?|Hc]; [done|].
    destruct (_load_from_json_cached (say [Cache_valid] st)) as (out & H & Hout).
    rewrite cached_documents_say in H, Hout. rewrite H, say_say, Hc.
    eexists. split; [done|].
    assert (forall msg, save_attempted [msg] -> msg ∉ Cache_valid :: out) as Hs.
    { intros msg (m & Hm & Hk) Hin. apply list_elem_of_singleton in Hm as ->.
      destruct Hout as [->|[_ [e ->]]];
        repeat (apply elem_of_cons in Hin as [->|Hin]);
        try (by inversion Hin); destruct Hk as [[? ?]|[? ?]]; done. }
    split; [|split; [exact Hs|split; [intros _; by left|done]]].
    destruct Hout as [->|[_ [e ->]]]; intros Hin;
      repeat (apply elem_of_cons in Hin as [?|Hin]);
      try done; by inversion Hin.
  - exists []. unfold say, set_stdout. rewrite app_nil_r.
    destruct st; simpl. split; [done|].
    split; [by intros Hin; inversion Hin|].
    split; [by intros msg _ Hin; inversion Hin|done].
Qed.

(** What step 3 prints. *)
Lemma build_index_stdout (documents : list Document) (st : state) :
  exists out,
    stdout (build_index documents st).2 = stdout st ++ out /\
    files (build_index documents st).2 = files st /\
    forall msg, msg ∈ out ->
      msg = Built_index (length documents) \/ msg = No_documents_to_index.
Proof.
  rewrite build_index_run. destruct documents as [|doc documents].
  - exists [No_documents_to_index]. repeat split. intros msg Hin.
    apply list_elem_of_singleton in Hin. by right.
  - destruct (from_documents (doc :: documents)) as [vs|].
    + exists [Built_index (length (doc :: documents))]. repeat split.
      intros msg Hin. apply list_elem_of_singleton in Hin. by left.
    + exists []. simpl. rewrite app_nil_r. repeat split.
      intros msg Hin. inversion Hin.
Qed.

(** What steps 2 and 3 print: the parse is announced exactly when the
    source document exists, and nothing of the cache check is printed. *)
Lemma fresh_parse_stdout (st : state) :
  exists out,
    stdout (fresh_parse st).2 = stdout st ++ out /\
    (Cache_valid ∉ out) /\ (forall n, Loaded_from_cache n ∉ out) /\
    (Parsing_PDF ∈ out <-> is_Some (files st !! pdf_path st)).
Proof.
  rewrite fresh_parse_run.
  destruct (files st !! pdf_path st) as [f|] eqn:Ef.
  - assert (forall rest : list message,
              (Cache_valid ∉ rest) -> (forall n, Loaded_from_cache n ∉ rest) ->
              (Cache_valid ∉ Parsing_PDF :: rest) /\
              (forall n, Loaded_from_cache n ∉ Parsing_PDF :: rest) /\
              (Parsing_PDF ∈ Parsing_PDF :: rest <-> is_Some (Some f))) as Hrest.
    { intros rest H1 H2. split; [|split].
      - intros Hin. apply elem_of_cons in Hin as [?|?]; [done|by apply H1].
      - intros n Hin. apply elem_of_cons in Hin as [?|?]; [done|by eapply H2].
      - split; [by eexists|intros _; by left]. }
    destruct (as_pdf f) as [pages|].
    + cbv zeta. destruct (parse_lines _ _ _) as [|doc documents] eqn:Ep.
      * eexists. split; [done|]. apply Hrest.
        -- intros Hin. repeat (apply elem_of_cons in Hin as [?|Hin]); try done.
           inversion Hin.
        -- intros n Hin. repeat (apply elem_of_cons in Hin as [?|Hin]); try done.
           inversion Hin.
      * rewrite _save_to_json_run.
        destruct (bool_decide (json_path (say [Parsing_PDF] st)
                                 ∈ locked (say [Parsing_PDF] st)));
          match goal with
          | |- context [build_index ?d ?s] =>
              destruct (build_index_stdout d s) as (out & Hout & _ & Hmsg)
          end; rewrite Hout; simpl; rewrite <-!app_assoc; simpl;
          (eexists; split; [done|]); apply Hrest.
        -- intros Hin. apply elem_of_cons in Hin as [?|Hin]; [done|].
           by destruct (Hmsg _ Hin).
        -- intros n Hin. apply elem_of_cons in Hin as [?|Hin]; [done|].
           by destruct (Hmsg _ Hin).
        -- intros Hin. apply elem_of_cons in Hin as [?|Hin]; [done|].
           by destruct (Hmsg _ Hin).
        -- intros n Hin. apply elem_of_cons in Hin as [?|Hin]; [done|].
           by destruct (Hmsg _ Hin).
    + exists [Parsing_PDF]. split; [done|]. apply Hrest.
      * intros Hin; inversion Hin.
      * intros n Hin; inversion Hin.
  - exists [PDF_not_found (pdf_path st)]. split; [done|].
    split; [|split].
    + intros Hin. apply list_elem_of_singleton in Hin. done.
    + intros n Hin. apply list_elem_of_singleton in Hin. done.
    + split; [|by intros [? ?]]. intros Hin.
      apply list_elem_of_singleton in Hin. done.
Qed.

Lemma printed_stdout {A} (m : M A) (st : state) (out : list message) :
  stdout (m st).2 = stdout st ++ out -> printed m st = out.
Proof. intros H. unfold printed. by rewrite H, drop_app_length. Qed.

Lemma cache_valid_exists (st : state) :
  cache_valid st = true -> is_Some (files st !! pdf_path st).
Proof.
  unfold cache_valid. intros H.
  apply andb_prop in H as [H _]. apply andb_prop in H as [H _].
  by apply bool_decide_eq_true in H.
Qed.

(** What [load_and_index] prints, way by way. *)
Lemma load_and_index_printed (st : state) :
  (cache_valid st = true /\ cached_documents st <> [] /\
   exists n rest,
     printed load_and_index st = Cache_valid :: Loaded_from_cache n :: rest /\
     (Parsing_PDF ∉ rest)) \/
  ((cache_valid st = false \/ cached_documents st = []) /\
   exists out rest,
     printed load_and_index st = out ++ rest /\
     (Parsing_PDF ∉ out) /\
     (cache_valid st = true -> Cache_valid ∈ out) /\
     (cache_valid st = false -> out = []) /\
     (Cache_valid ∉ rest) /\ (forall n, Loaded_from_cache n ∉ rest) /\
     (Parsing_PDF ∈ rest <-> is_Some (files st !! pdf_path st))).
Proof.
  destruct (cache_valid st) eqn:Hv;
    [destruct (decide (cached_documents st = [])) as [Hc|Hc]|].
  - right. split; [by right|].
    destruct (load_and_index_fresh st) as (out & Hrun & H1 & _ & H2 & H3);
      [by right|].
    destruct (fresh_parse_stdout (say out st)) as (rest & Hout & H4 & H5 & H6).
    exists out, rest. split; [|by rewrite Hv in *].
    apply printed_stdout. rewrite Hrun, Hout. simpl. by rewrite app_assoc.
  - left. split; [done|]. split; [done|].
    destruct (load_and_index_cached st Hv Hc) as [n Hrun].
    destruct (build_index_stdout (cached_documents st)
                (say [Cache_valid; Loaded_from_cache n] st))
      as (rest & Hout & _ & Hmsg).
    exists n, rest. split.
    + apply printed_stdout. rewrite Hrun, Hout. simpl.
      by rewrite <-app_assoc.
    + intros Hin. by destruct (Hmsg _ Hin).
  - right. split; [by left|].
    destruct (load_and_index_fresh st) as (out & Hrun & H1 & _ & H2 & H3);
      [by left|].
    destruct (fresh_parse_stdout (say out st)) as (rest & Hout & H4 & H5 & H6).
    exists out, rest. split; [|by rewrite Hv in *].
    apply printed_stdout. rewrite Hrun, Hout. simpl. by rewrite app_assoc.
Qed.

(** C2, as the code has it.  The cache is consulted exactly when it is
    valid: the source document exists, the cache file exists, and the
    cache is not older than the source (a missing file counting as time
    0.0).  The parse is skipped and the records are those of the cache
    exactly when the cache is valid and its load gives at least one
    record.  When the source document exists and the cache is strictly
    older, the document is parsed again. *)
Theorem cache_used_iff_valid_and_nonempty (st : state) :
  (Cache_valid ∈ printed load_and_index st <-> cache_valid st = true) /\
  (skips_parse_and_loads_cache st <->
     cache_valid st = true /\ cached_documents st <> []) /\
  (is_Some (files st !! pdf_path st) ->
   (file_mtime st (json_path st) < file_mtime st (pdf_path st))%Q ->
   Parsing_PDF ∈ printed load_and_index st).
Proof.
  unfold skips_parse_and_loads_cache.
  destruct (load_and_index_printed st)
    as [(Hv & Hc & n & rest & -> & Hrest)
       |(Hf & out & rest & -> & H1 & H2 & H3 & H4 & H5 & H6)].
  - split; [|split].
    + split; [done|]. intros _. by left.
    + split; [done|]. intros _. split.
      * intros Hin. repeat (apply elem_of_cons in Hin as [?|Hin]); done.
      * exists n. right. by left.
    + intros _ Hlt. exfalso. unfold cache_valid in Hv.
      apply andb_prop in Hv as [_ Hle]. apply Qle_bool_iff in Hle.
      by apply Qlt_not_le in Hlt.
  - split; [|split].
    + split.
      * intros Hin. apply elem_of_app in Hin as [Hin|Hin]; [|done].
        destruct (cache_valid st); [done|]. rewrite H3 in Hin by done.
        inversion Hin.
      * intros Hv. apply elem_of_app. left. by apply H2.
    + split.
      * intros [Hnp [n Hl]]. destruct (cache_valid st) eqn:Hv.
        -- exfalso. apply Hnp, elem_of_app. right. apply H6.
           by apply cache_valid_exists.
        -- rewrite H3 in Hl by done. simpl in Hl. by apply H5 in Hl.
      * intros [Hv Hc]. destruct Hf as [Hf|Hf]; congruence.
    + intros Hex _. apply elem_of_app. right. by apply H6.
Qed.

(** ** The queries *)

Lemma hits_of_acc (docs : list (Document * score)) (acc : list Hit) :
  fold_left
    (fun results '(doc, sc) =>
       results ++ [mkHit (page_content doc) (metadata doc) sc]) docs acc =
    acc ++ ((fun ds => mkHit (page_content ds.1) (metadata ds.1) ds.2) <$> docs).
Proof.
  revert acc. induction docs as [|[doc sc] docs IH]; intros acc; simpl.
  - by rewrite app_nil_r.
  - by rewrite IH, <-app_assoc.
Qed.

Lemma hits_of_map (docs : list (Document * score)) :
  hits_of docs =
    (fun ds => mkHit (page_content ds.1) (metadata ds.1) ds.2) <$> docs.
Proof. apply hits_of_acc. Qed.

Lemma search_similar_features_built (query : str) (k : nat) (st : state)
    (store : index) :
  vector_store st = Some store ->
  search_similar_features query k st =
    match similarity_search_with_score store query k with
    | Some docs => (Ok (hits_of docs), st)
    | None => (Raise ProviderError, st)
    end.
Proof.
  intros Hvs. unfold search_similar_features, bind, get, ret, provider, raise.
  cbv beta iota. rewrite Hvs. cbv beta iota. rewrite Hvs.
  by destruct (similarity_search_with_score store query k).
Qed.

(** The hits are those of the index the loader holds after the call. *)
Lemma search_similar_features_hits (query : str) (k : nat) (st st' : state)
    (hits : list Hit) :
  search_similar_features query k st = (Ok hits, st') ->
  match vector_store st' with
  | Some store =>
      exists docs,
        similarity_search_with_score store query k = Some docs /\
        hits = hits_of docs
  | None => hits = []
  end.
Proof.
  unfold search_similar_features, bind at 1, get at 1. unfold bind at 1.
  destruct (match vector_store st with
            | Some _ => ret tt
            | None => load_and_index
            end st) as [[[]|e] st1] eqn:E1; [|done].
  assert (st = st1 \/ vector_store st = None) as Hst.
  { destruct (vector_store st); [left|by right]. by inversion E1. }
  unfold bind, get, provider, ret, raise.
  destruct (vector_store st1) as [store|] eqn:Evs.
  - destruct (similarity_search_with_score store query k) as [docs|] eqn:Es;
      [|done].
    intros [= <- <-]. rewrite Evs. by exists docs.
  - intros [= <- <-]. by rewrite Evs.
Qed.

Lemma select_features_semantically_run (plan : MarketingPlan) (st : state) :
  select_features_semantically plan st =
    match search_similar_features (search_query plan) 10 st with
    | (Ok hits, st') => (Ok (select_one <$> hits), st')
    | (Raise e, st') => (Raise e, st')
    end.
Proof.
  unfold select_features_semantically, bind, ret.
  destruct (search_similar_features (search_query plan) 10 st)
    as [[hits|e] st']; [|done].
  by rewrite fold_left_snoc.
Qed.

(** ** The source document is missing *)

Lemma load_and_index_no_pdf (st : state) :
  files st !! pdf_path st = None ->
  load_and_index st = (Ok tt, say [PDF_not_found (pdf_path st)] st).
Proof.
  intros Hno. rewrite load_and_index_run. unfold cache_valid.
  rewrite Hno. cbn [bool_decide decide_rel is_Some_dec andb].
  by rewrite fresh_parse_run, Hno.
Qed.

Lemma search_similar_features_no_pdf (query : str) (k : nat) (st : state) :
  files st !! pdf_path st = None -> vector_store st = None ->
  search_similar_features query k st =
    (Ok [], say [PDF_not_found (pdf_path st)] st).
Proof.
  intros Hno Hvs. unfold search_similar_features, bind, get.
  rewrite Hvs, load_and_index_no_pdf by done. simpl. by rewrite Hvs.
Qed.

(** A run of calls that each return the empty list and only print. *)
Lemma for_each_empty {A B} (f : A -> M (list B)) (inv : state -> Prop)
    (l : list A) (st : state) :
  (forall a s, inv s -> exists out, f a s = (Ok [], say out s)) ->
  (forall out s, inv s -> inv (say out s)) ->
  inv st ->
  exists out, for_each f l st = (Ok (replicate (length l) []), say out st).
Proof.
  intros Hf Hsay. revert st. induction l as [|a l IH]; intros st Hinv.
  - exists []. unfold say, set_stdout. rewrite app_nil_r. by destruct st.
  - destruct (Hf a st Hinv) as [out1 H1].
    destruct (IH (say out1 st)) as [out2 H2]; [by apply Hsay|].
    exists (out1 ++ out2). cbn [for_each]. unfold bind at 1. rewrite H1.
    unfold bind at 1. rewrite H2. unfold ret. simpl. by rewrite say_say.
Qed.

(** C3. Without the source document [load_and_index] returns normally,
    with no record, no index and no file written; and from a loader
    without an index every query, whatever their number, returns the
    empty list, as does [select_features_semantically], without raising. *)
Theorem missing_pdf_gives_empty_results (st : state) :
  files st !! pdf_path st = None ->
  vector_store st = None ->
  load_and_index st = (Ok tt, say [PDF_not_found (pdf_path st)] st) /\
  vector_store (load_and_index st).2 = None /\
  files (load_and_index st).2 = files st /\
  (forall (queries : list (str * nat)) (out0 : list message),
     exists out,
       for_each (fun qk => search_similar_features qk.1 qk.2) queries
         (say out0 st) =
         (Ok (replicate (length queries) []), say out st)) /\
  (forall (plans : list MarketingPlan) (out0 : list message),
     exists out,
       for_each select_features_semantically plans (say out0 st) =
         (Ok (replicate (length plans) []), say out st)).
Proof.
  intros Hno Hvs.
  set (inv := fun s : state =>
                files s !! pdf_path s = None /\ vector_store s = None).
  assert (forall out s, inv s -> inv (say out s)) as Hsay by done.
  rewrite load_and_index_no_pdf by done.
  split; [done|]. split; [done|]. split; [done|]. split.
  - intros queries out0.
    destruct (for_each_empty
                (fun qk : str * nat => search_similar_features qk.1 qk.2)
                inv queries (say out0 st)) as [out H]; [|done|by apply Hsay|].
    + intros [q k] s [H1 H2]. eexists.
      by apply search_similar_features_no_pdf.
    + exists (out0 ++ out). by rewrite H, say_say.
  - intros plans out0.
    destruct (for_each_empty select_features_semantically inv plans
                (say out0 st)) as [out H]; [|done|by apply Hsay|].
    + intros plan s [H1 H2]. eexists.
      rewrite select_features_semantically_run.
      by rewrite search_similar_features_no_pdf.
    + exists (out0 ++ out). by rewrite H, say_say.
Qed.

(** ** The selection service *)

(** C4. The selection service gives one feature for every hit of the
    query, in the order of the hits: the name is the category in square
    brackets, a space and the feature name, the reason is the template
    around the description and the value, the score is the score of the
    hit; the list is empty exactly when there is no hit; and the index is
    asked for 10 results. *)
Theorem one_selected_feature_per_hit (plan : MarketingPlan) (st st' : state)
    (hits : list Hit) :
  search_similar_features (search_query plan) 10 st = (Ok hits, st') ->
  exists features,
    select_features_semantically plan st = (Ok features, st') /\
    length features = length hits /\
    (features = [] <-> hits = []) /\
    (forall i hit, hits !! i = Some hit ->
       exists feature,
         features !! i = Some feature /\
         similarity_score feature = hit_similarity_score hit /\
         (forall category feature_name,
            hit_metadata hit !! lit "category" = Some category ->
            hit_metadata hit !! lit "feature_name" = Some feature_name ->
            name feature = lit "[" ++ category ++ lit "] " ++ feature_name) /\
         (forall description value,
            hit_metadata hit !! lit "description" = Some description ->
            hit_metadata hit !! lit "value" = Some value ->
            reason feature =
              reason_head ++ description ++ reason_mid ++ value ++ reason_tail)) /\
    match vector_store st' with
    | Some store =>
        exists docs,
          similarity_search_with_score store (search_query plan) 10 = Some docs
          /\ hits = hits_of docs
    | None => hits = []
    end.
Proof.
  intros Hs. exists (select_one <$> hits).
  split; [by rewrite select_features_semantically_run, Hs|].
  split; [by rewrite length_fmap|].
  split; [by destruct hits|]. split.
  - intros i hit Hi. exists (select_one hit).
    split; [by rewrite list_lookup_fmap, Hi|].
    split; [done|]. split.
    + intros c n Hc Hn. unfold select_one. cbn [name]. by rewrite Hc, Hn.
    + intros d v Hd Hv. unfold select_one. cbn [reason]. by rewrite Hd, Hv.
  - by eapply search_similar_features_hits.
Qed.


(** ** The cache store *)

Lemma load_items_cache_entries (documents acc : list Document) (st : state) :
  load_items (cache_entry <$> documents) acc st = (Ok (acc ++ documents), st).
Proof.
  revert acc. induction documents as [|[text m] documents IH]; intros acc.
  - simpl. by rewrite app_nil_r.
  - rewrite fmap_cons. cbn [load_items]. unfold bind.
    change (default (JStr (lit "")) (cache_entry (mkDocument text m)
                                        !! lit "page_content"))
      with (JStr text).
    change (default (JDict ∅) (cache_entry (mkDocument text m)
                                 !! lit "metadata"))
      with (JDict m).
    cbn [Document_new]. unfold ret at 1. rewrite IH.
    by rewrite <-app_assoc.
Qed.


(** C6. A load of the cache that fails inside its [try] returns no
    record and raises nothing; [load_and_index], if it had found the
    cache valid, goes on with the parse of the source document, exactly
    as it would without a cache; and the only exceptions that leave
    [load_and_index] are those of the reader of the source document and
    of the index provider. *)
Theorem cache_load_failure_is_a_cache_miss (st st_e : state) (e : exn) :
  load_from_json_body st = (Raise e, st_e) ->
  _load_from_json st = (Ok [], say [Error_loading_cache e] st) /\
  (cache_valid st = true ->
   load_and_index st =
     fresh_parse (say [Cache_valid; Error_loading_cache e] st) /\
   Parsing_PDF ∈ printed load_and_index st) /\
  (forall st0, exists documents st1,
     _load_from_json st0 = (Ok documents, st1)) /\
  (forall st0 e0,
     (load_and_index st0).1 = Raise e0 ->
     e0 = PdfReadError \/ e0 = ProviderError).
Proof.
  intros Hbody.
  assert (_load_from_json st = (Ok [], say [Error_loading_cache e] st)) as Hl.
  { destruct (_load_from_json_run st) as [(d & Hb & _)|(e' & Hb & Hl)];
      rewrite Hb in Hbody; by simplify_eq. }
  split; [done|]. split; [|split].
  - intros Hv.
    assert (load_and_index st =
              fresh_parse (say [Cache_valid; Error_loading_cache e] st)) as Hrun.
    { rewrite load_and_index_run, Hv.
      destruct (_load_from_json_run (say [Cache_valid] st))
        as [(d & Hb & _)|(e' & Hb & Hl')].
      - pose proof (load_from_json_body_stdout
                      (stdout st ++ [Cache_valid]) st) as Hs.
        fold (say [Cache_valid] st) in Hs. rewrite Hb, Hbody in Hs. done.
      - pose proof (load_from_json_body_stdout
                      (stdout st ++ [Cache_valid]) st) as Hs.
        fold (say [Cache_valid] st) in Hs. rewrite Hb, Hbody in Hs.
        simpl in Hs. simplify_eq. by rewrite Hl', say_say. }
    split; [done|].
    destruct (fresh_parse_stdout (say [Cache_valid; Error_loading_cache e] st))
      as (rest & Hout & _ & _ & Hp).
    rewrite (printed_stdout load_and_index st
               ([Cache_valid; Error_loading_cache e] ++ rest)).
    + apply elem_of_app. right. apply Hp. by apply cache_valid_exists.
    + rewrite Hrun, Hout. simpl. by rewrite <-app_assoc.
  - intros st0.
    destruct (_load_from_json_run st0) as [(d & _ & H)|(e' & _ & H)];
      rewrite H; by eexists _, _.
  - intros st0 e0. 
    assert (forall d s, (build_index d s).1 = Raise e0 -> e0 = ProviderError)
      as Hbuild.
    { intros d s. rewrite build_index_run. destruct d; [done|].
      destruct (from_documents _); [done|]. simpl. by intros [= <-]. }
    assert (forall s, (fresh_parse s).1 = Raise e0 ->
                      e0 = PdfReadError \/ e0 = ProviderError) as Hfresh.
    { intros s. rewrite fresh_parse_run.
      destruct (files s !! pdf_path s) as [f|]; [|done].
      destruct (as_pdf f) as [pages|]; [|simpl; intros [= <-]; by left].
      cbv zeta. destruct (parse_lines _ _ _) as [|doc docs]; [done|].
      destruct (_save_to_json _ _) as [r s1]. intros H. right.
      by eapply Hbuild. }
    rewrite load_and_index_run. destruct (cache_valid st0); [|apply Hfresh].
    destruct (_load_from_json_run (say [Cache_valid] st0))
      as [(d & _ & H)|(e' & _ & H)]; rewrite H.
    + destruct d; [apply Hfresh|]. intros He. right. by eapply Hbuild.
    + apply Hfresh.
Qed.

(** ** The cache after a parse *)



Lemma save_attempted_app (out1 out2 : list message) :
  save_attempted (out1 ++ out2) <-> save_attempted out1 \/ save_attempted out2.
Proof.
  unfold save_attempted. split.
  - intros (msg & Hin & Hk). apply elem_of_app in Hin as [Hin|Hin];
      [left|right]; by exists msg.
  - intros [(msg & Hin & Hk)|(msg & Hin & Hk)]; exists msg;
      (split; [apply elem_of_app; auto|done]).
Qed.

Lemma save_attempted_none (out : list message) :
  (forall msg, save_attempted [msg] -> msg ∉ out) -> ~ save_attempted out.
Proof.
  intros H (msg & Hin & Hk). apply (H msg); [|done].
  exists msg. split; [by left|done].
Qed.

(** The files and the output after a parse of the source document. *)
Lemma load_and_index_after_parse (st : state) (f : file)
    (pages : list str) :
  files st !! pdf_path st = Some f ->
  as_pdf f = Some pages ->
  cache_valid st = false \/ cached_documents st = [] ->
  let documents :=
    parse_lines (pdf_path st) (split [10] (extract_raw_text pages)) [] in
  (save_attempted (printed load_and_index st) <-> documents <> []) /\
  (documents = [] ->
   exists out,
     load_and_index st = (Ok tt, say out st) /\
     printed load_and_index st = out /\
     No_content_parsed ∈ out /\ No_documents_to_index ∈ out) /\
  (documents <> [] ->
   files (load_and_index st).2 =
     if bool_decide (json_path st ∈ locked st) then files st
     else <[json_path st :=
              mkFile (clock st) None (Ok (cache_entry <$> documents))]>
            (files st)) /\
  (documents <> [] -> json_path st ∉ locked st ->
   Saved_to_cache (length documents) ∈ printed load_and_index st /\
   files (load_and_index st).2 !! json_path st =
     Some (mkFile (clock st) None (Ok (cache_entry <$> documents)))).
Proof.
  intros Hf Hpages Hfresh documents.
  destruct (load_and_index_fresh st Hfresh)
    as (out & Hrun & Hnp & Hns & _ & _).
  apply save_attempted_none in Hns.
  pose proof (fresh_parse_run (say out st)) as Hfp.
  cbn [files pdf_path say set_stdout] in Hfp. rewrite Hf, Hpages in Hfp.
  cbv zeta in Hfp. fold documents in Hfp.
  clearbody documents. destruct documents as [|doc docs].
  - rewrite say_say in Hfp.
    assert (printed load_and_index st =
              out ++ [Parsing_PDF; No_content_parsed; No_documents_to_index])
      as Hpr.
    { apply printed_stdout. by rewrite Hrun, Hfp. }
    split; [|split; [|split]]; try done.
    + rewrite Hpr, save_attempted_app. split; [|done].
      intros [?|(msg & Hin & Hk)]; [done|].
      repeat (apply elem_of_cons in Hin as [->|Hin]);
        try (by inversion Hin); by destruct Hk as [[? ?]|[? ?]].
    + intros _. eexists. split; [by rewrite Hrun, Hfp|]. split; [done|].
      split; apply elem_of_app; right; found.
  - cbv beta iota in Hfp.
    assert (doc :: docs <> []) as Hne by done.
    remember (doc :: docs) as documents eqn:Hd. clear Hd doc docs.
    rewrite _save_to_json_run in Hfp.
    cbn [json_path locked say set_stdout] in Hfp.
    destruct (bool_decide (json_path st ∈ locked st)) eqn:Hlock.
    + match type of Hfp with
      | _ = build_index ?d ?s =>
          destruct (build_index_stdout d s) as (rest & Hout & Hfiles & Hmsg)
      end.
      rewrite <-Hfp, <-Hrun in Hout, Hfiles.
      assert (printed load_and_index st =
                out ++ [Parsing_PDF; Error_saving_cache OSError] ++ rest)
        as Hpr.
      { apply printed_stdout. rewrite Hout. simpl. by rewrite <-!app_assoc. }
      split; [|split; [|split]]; try done.
      * split; [done|]. intros _.
        rewrite Hpr. apply save_attempted_app. right.
        exists (Error_saving_cache OSError).
        split; [found|right; by eexists].
      * intros _ Hw. by apply bool_decide_eq_true in Hlock.
    + match type of Hfp with
      | _ = build_index ?d ?s =>
          destruct (build_index_stdout d s) as (rest & Hout & Hfiles & Hmsg)
      end.
      rewrite <-Hfp, <-Hrun in Hout, Hfiles.
      assert (printed load_and_index st =
                out ++ [Parsing_PDF; Saved_to_cache (length documents)] ++ rest)
        as Hpr.
      { apply printed_stdout. rewrite Hout. simpl. by rewrite <-!app_assoc. }
      split; [|split; [|split]]; try done.
      * split; [done|]. intros _.
        rewrite Hpr. apply save_attempted_app. right.
        exists (Saved_to_cache (length documents)).
        split; [found|left; by eexists].
      * intros _ _. split.
        -- rewrite Hpr. apply elem_of_app. right. found.
        -- rewrite Hfiles. simpl. apply lookup_insert_eq.
Qed.

(** C8. After a parse of the source document, [_save_to_json] runs
    exactly when the parse gave at least one record, and then puts the
    records in the cache file unless the file cannot be opened for
    writing, which is caught and printed.  With no record the run ends
    normally, prints the condition, and changes neither the files nor
    the index. *)
Theorem cache_written_iff_records_parsed (st : state) (f : file)
    (pages : list str) :
  files st !! pdf_path st = Some f ->
  as_pdf f = Some pages ->
  cache_valid st = false \/ cached_documents st = [] ->
  let documents :=
    parse_lines (pdf_path st) (split [10] (extract_raw_text pages)) [] in
  (save_attempted (printed load_and_index st) <-> documents <> []) /\
  (documents = [] ->
   exists out,
     load_and_index st = (Ok tt, say out st) /\
     printed load_and_index st = out /\
     No_content_parsed ∈ out /\ No_documents_to_index ∈ out) /\
  (documents <> [] ->
   files (load_and_index st).2 =
     if bool_decide (json_path st ∈ locked st) then files st
     else <[json_path st :=
              mkFile (clock st) None (Ok (cache_entry <$> documents))]>
            (files st)) /\
  (documents <> [] -> json_path st ∉ locked st ->
   Saved_to_cache (length documents) ∈ printed load_and_index st /\
   files (load_and_index st).2 !! json_path st =
     Some (mkFile (clock st) None (Ok (cache_entry <$> documents)))) /\
  (json_path st ∉ locked st ->
   (exists n, Saved_to_cache n ∈ printed load_and_index st) <->
   documents <> []).
Proof.
  intros Hf Hpages Hfresh documents.
  destruct (load_and_index_after_parse st f pages Hf Hpages Hfresh)
    as (H1 & H2 & H3 & H4).
  split; [done|]. split; [done|]. split; [done|]. split; [done|].
  intros Hw. split.
  - intros [n Hn]. apply H1. exists (Saved_to_cache n).
    split; [done|left; by eexists].
  - intros Hne. eexists. by apply H4.
Qed.

(** * Further properties *)

(** ** The daily quantities of the campaign plan *)

Lemma sum_Z_app (l1 l2 : list Z) :
  foldr Z.add 0%Z (l1 ++ l2) = (foldr Z.add 0 l1 + foldr Z.add 0 l2)%Z.
Proof. induction l1 as [|x l1 IH]; simpl; lia. Qed.

Lemma sum_base_plus_first (b r : Z) (n : nat) :
  (0 <= r)%Z ->
  foldr Z.add 0%Z
    ((fun i => (b + (if (i <=? r)%Z then 1 else 0))%Z) <$> seqZ 1 (Z.of_nat n)) =
    (Z.of_nat n * b + Z.min (Z.of_nat n) r)%Z.
Proof.
  intros Hr. induction n as [|n IH].
  - simpl. lia.
  - rewrite seqZ_S, fmap_app, sum_Z_app, IH. simpl.
    destruct (Z.leb_spec (1 + Z.of_nat n) r); lia.
Qed.

Lemma plan_daily_quantities_lookup (total d : Z) (qs : list DailyQuantity)
    (i : nat) (q : DailyQuantity) :
  plan_daily_quantities total d = Some qs -> qs !! i = Some q ->
  (Z.of_nat i < d)%Z /\
  day_number q = (1 + Z.of_nat i)%Z /\
  quantity q =
    (total `div` d + (if (1 + Z.of_nat i <=? total `mod` d)%Z then 1 else 0))%Z.
Proof.
  unfold plan_daily_quantities. destruct (decide (d = 0)%Z); [done|].
  intros [= <-]. rewrite list_lookup_fmap.
  destruct (seqZ 1 d !! i) as [k|] eqn:E; [|done].
  apply lookup_seqZ in E as [-> Hlt]. by intros [= <-].
Qed.

(** X1. The daily quantities of a plan of [duration_days >= 1] days are
    one per day, numbered 1, 2, ... in order, and they add up to the
    total quantity. *)
Theorem daily_quantities_add_up (total_quantity duration_days : Z) :
  (0 < duration_days)%Z ->
  exists qs,
    plan_daily_quantities total_quantity duration_days = Some qs /\
    length qs = Z.to_nat duration_days /\
    day_number <$> qs = seqZ 1 duration_days /\
    foldr Z.add 0%Z (quantity <$> qs) = total_quantity.
Proof.
  intros Hd. unfold plan_daily_quantities.
  destruct (decide (duration_days = 0)%Z); [lia|].
  eexists. split; [done|]. split; [by rewrite length_fmap, length_seqZ|].
  split.
  - rewrite <-list_fmap_compose. apply list_fmap_id.
  - pose proof (Z.mod_pos_bound total_quantity duration_days Hd) as Hr.
    set (b := (total_quantity `div` duration_days)%Z).
    set (r := (total_quantity `mod` duration_days)%Z) in *.
    assert (quantity <$>
              ((fun i =>
                  mkDailyQuantity i (b + (if (i <=? r)%Z then 1 else 0))%Z)
                 <$> seqZ 1 duration_days) =
            (fun i => (b + (if (i <=? r)%Z then 1 else 0))%Z)
              <$> seqZ 1 (Z.of_nat (Z.to_nat duration_days))) as ->.
    { rewrite Z2Nat.id by lia. by rewrite <-list_fmap_compose. }
    rewrite sum_base_plus_first by lia.
    pose proof (Z.div_mod total_quantity duration_days). subst b r. lia.
Qed.

(** X2. The plan is balanced: a day never gets more than an earlier
    day, no two days differ by more than one, and no day is negative
    when the total is not. *)
Theorem daily_quantities_balanced (total_quantity duration_days : Z)
    (qs : list DailyQuantity) (i j : nat) (qi qj : DailyQuantity) :
  (0 < duration_days)%Z ->
  plan_daily_quantities total_quantity duration_days = Some qs ->
  qs !! i = Some qi -> qs !! j = Some qj -> (i <= j)%nat ->
  (quantity qj <= quantity qi <= quantity qj + 1)%Z /\
  ((0 <= total_quantity)%Z -> (0 <= quantity qj)%Z).
Proof.
  intros Hd Hqs Hi Hj Hij.
  destruct (plan_daily_quantities_lookup _ _ _ _ _ Hqs Hi) as (_ & _ & ->).
  destruct (plan_daily_quantities_lookup _ _ _ _ _ Hqs Hj) as (_ & _ & ->).
  split.
  - destruct (Z.leb_spec (1 + Z.of_nat i) (total_quantity `mod` duration_days)),
      (Z.leb_spec (1 + Z.of_nat j) (total_quantity `mod` duration_days)); lia.
  - intros Ht. pose proof (Z.div_pos total_quantity duration_days Ht Hd).
    destruct (Z.leb_spec (1 + Z.of_nat j) (total_quantity `mod` duration_days));
      lia.
Qed.

(** ** Well-formed rows *)

Lemma cut_bar (a b : str) :
  124 ∉ a -> cut (lit " | ") (a ++ lit " | " ++ b) = Some (a, b).
Proof.
  change (lit " | ") with [32; 124; 32].
  induction a as [|c a IH]; intros H; [done|].
  apply not_elem_of_cons in H as [Hc Ha].
  rewrite <-app_comm_cons. cbn [cut].
  assert (after_prefix [32; 124; 32] (c :: a ++ [32; 124; 32] ++ b) = None)
    as ->.
  { cbn [after_prefix]. destruct (32 =? c); [|done].
    destruct a as [|d a]; [done|]. rewrite <-app_comm_cons.
    apply not_elem_of_cons in Ha as [Hd _].
    by rewrite (proj2 (N.eqb_neq 124 d)). }
  by rewrite IH.
Qed.

Lemma cut_bar_None (s : str) : 124 ∉ s -> cut (lit " | ") s = None.
Proof.
  intros H. destruct (cut (lit " | ") s) as [[a b]|] eqn:E; [|done].
  apply cut_Some in E as ->. exfalso. apply H.
  apply elem_of_app. right. apply list_elem_of_further, list_elem_of_here.
Qed.

Lemma splitn_None (n : nat) (sep s : str) :
  cut sep s = None -> splitn n sep s = [s].
Proof. intros H. destruct n; cbn [splitn]; [done|]. by rewrite H. Qed.

Lemma feature_row_segments (feat_name cat desc value : str) :
  feature_row feat_name cat desc value =
    (lit "ID: " ++ feat_name) ++ lit " | " ++ (lit "CAT: " ++ cat) ++ lit " | "
      ++ (lit "DESC: " ++ desc) ++ lit " | " ++ (lit "VAL: " ++ value).
Proof. unfold feature_row. by rewrite <-!app_assoc. Qed.

Lemma not_elem_of_label (label s : str) :
  124 ∉ label -> 124 ∉ s -> 124 ∉ label ++ s.
Proof. intros H1 H2 Hin. apply elem_of_app in Hin as [?|?]; auto. Qed.

Lemma bar_not_in_lit_ID : 124 ∉ lit "ID: ".
Proof. apply (bool_decide_eq_false_1 (124 ∈ lit "ID: ")). by vm_compute. Qed.
Lemma bar_not_in_lit_CAT : 124 ∉ lit "CAT: ".
Proof. apply (bool_decide_eq_false_1 (124 ∈ lit "CAT: ")). by vm_compute. Qed.
Lemma bar_not_in_lit_DESC : 124 ∉ lit "DESC: ".
Proof. apply (bool_decide_eq_false_1 (124 ∈ lit "DESC: ")). by vm_compute. Qed.
Lemma bar_not_in_lit_VAL : 124 ∉ lit "VAL: ".
Proof. apply (bool_decide_eq_false_1 (124 ∈ lit "VAL: ")). by vm_compute. Qed.

Lemma split_feature_row (feat_name cat desc value : str) :
  bar_free (feat_name, cat, desc, value) ->
  split (lit " | ") (feature_row feat_name cat desc value) =
    [lit "ID: " ++ feat_name; lit "CAT: " ++ cat; lit "DESC: " ++ desc;
     lit "VAL: " ++ value].
Proof.
  intros (H1 & H2 & H3 & H4). unfold split.
  rewrite (splitn_more _ (3 + length (feature_row feat_name cat desc value))
             (lit " | ")) by (done || lia).
  rewrite feature_row_segments at 2. cbn [Nat.add splitn].
  rewrite cut_bar by (by apply not_elem_of_label, H1; apply bar_not_in_lit_ID).
  rewrite cut_bar by (by apply not_elem_of_label, H2; apply bar_not_in_lit_CAT).
  rewrite cut_bar by (by apply not_elem_of_label, H3; apply bar_not_in_lit_DESC).
  rewrite splitn_None; [done|].
  apply cut_bar_None. by apply not_elem_of_label, H4; apply bar_not_in_lit_VAL.
Qed.

Lemma parse_row_feature_row (pdf_path : str) (fields : str * str * str * str) :
  bar_free fields ->
  let '(feat_name, cat, desc, value) := fields in
  parse_lines pdf_path [feature_row feat_name cat desc value] [] =
    [record_of_fields pdf_path fields].
Proof.
  destruct fields as [[[feat_name cat] desc] value]. intros Hfree.
  rewrite parse_lines_one.
  assert (contains (lit "ID: ") (feature_row feat_name cat desc value) = true)
    as ->.
  { apply contains_true. exists [], (feat_name ++ lit " | CAT: " ++ cat
      ++ lit " | DESC: " ++ desc ++ lit " | VAL: " ++ value). done. }
  assert (contains (lit " | ") (feature_row feat_name cat desc value) = true)
    as ->.
  { unfold contains. rewrite feature_row_segments, cut_bar; [done|].
    destruct Hfree as (H1 & _).
    by apply not_elem_of_label, H1; apply bar_not_in_lit_ID. }
  cbn [andb]. unfold parse_row.
  rewrite (split_feature_row _ _ _ _ Hfree), parse_fields_Ok.
  cbn [omap list_omap].
  change (key_value (lit "ID: " ++ feat_name))
    with (Some (lit "ID", strip feat_name)).
  change (key_value (lit "CAT: " ++ cat)) with (Some (lit "CAT", strip cat)).
  change (key_value (lit "DESC: " ++ desc)) with (Some (lit "DESC", strip desc)).
  change (key_value (lit "VAL: " ++ value)) with (Some (lit "VAL", strip value)).
  unfold record_of_fields.
  generalize (strip feat_name) (strip cat) (strip desc) (strip value).
  generalize (feature_row feat_name cat desc value).
  intros row a b c d. by vm_compute.
Qed.

(** X3. A document of well-formed rows, none of whose fields holds the
    character [|], parses into exactly one record per row, in order,
    each with the trimmed fields of its row. *)
Theorem well_formed_rows_parse (pdf_path : str)
    (rows : list (str * str * str * str)) :
  Forall bar_free rows ->
  parse_lines pdf_path
    ((fun '(feat_name, cat, desc, value) =>
        feature_row feat_name cat desc value) <$> rows) [] =
    record_of_fields pdf_path <$> rows /\
  length (parse_lines pdf_path
            ((fun '(feat_name, cat, desc, value) =>
                feature_row feat_name cat desc value) <$> rows) []) =
    length rows.
Proof.
  intros Hrows.
  assert (parse_lines pdf_path
            ((fun '(feat_name, cat, desc, value) =>
                feature_row feat_name cat desc value) <$> rows) [] =
          record_of_fields pdf_path <$> rows) as Heq.
  { induction Hrows as [|fields rows Hf _ IH]; [done|].
    rewrite !fmap_cons.
    change (?x :: ?l) with ([x] ++ l) at 1.
    rewrite parse_lines_app, IH.
    pose proof (parse_row_feature_row pdf_path fields Hf) as Hrow.
    destruct fields as [[[feat_name cat] desc] value]. by rewrite Hrow. }
  split; [done|]. by rewrite Heq, length_fmap.
Qed.

(** ** Repeated keys *)

Lemma foldl_insert_lookup_ne (l : list (str * str)) (m : gmap str str)
    (k : str) :
  (forall kv, kv ∈ l -> kv.1 <> k) ->
  foldl (fun m kv => <[kv.1 := kv.2]> m) m l !! k = m !! k.
Proof.
  revert m. induction l as [|[k' v'] l IH]; intros m H; [done|].
  cbn [foldl]. rewrite IH.
  - apply lookup_insert_ne. apply (H (k', v')). by left.
  - intros kv Hin. apply H. by right.
Qed.

(** X4. When a key occurs in several segments of a row, the last
    segment with that key gives its value. *)
Theorem last_segment_of_a_key_wins (parts1 parts2 : list str) (p k v : str)
    (meta : gmap str str) :
  key_value p = Some (k, v) ->
  (forall q k' v', q ∈ parts2 -> key_value q = Some (k', v') -> k' <> k) ->
  exists m,
    parse_fields (parts1 ++ p :: parts2) meta = Ok m /\ m !! k = Some v.
Proof.
  intros Hp Hrest. rewrite parse_fields_Ok. eexists. split; [done|].
  rewrite omap_app. cbn [omap list_omap]. rewrite Hp.
  rewrite foldl_app. cbn [foldl].
  rewrite foldl_insert_lookup_ne.
  - apply lookup_insert_eq.
  - intros [k' v'] Hin. apply list_elem_of_omap in Hin as (q & Hq & Hkv).
    by eapply Hrest.
Qed.

(** ** Pages and lines *)

Lemma contains_char (c : N) (s : str) : contains [c] s = false <-> c ∉ s.
Proof.
  rewrite contains_false. split.
  - intros H Hin. apply list_elem_of_split in Hin as (x & y & ->).
    by apply (H x y).
  - intros H x y ->. apply H. apply elem_of_app. right. by left.
Qed.

Lemma cut_char (c : N) (a b : str) :
  c ∉ a -> cut [c] (a ++ [c] ++ b) = Some (a, b).
Proof.
  induction a as [|x a IH]; intros H.
  - cbn. by rewrite N.eqb_refl.
  - apply not_elem_of_cons in H as [Hx Ha]. rewrite <-app_comm_cons.
    cbn [cut after_prefix].
    rewrite (proj2 (N.eqb_neq c x)) by done. by rewrite IH.
Qed.

Lemma cut_char_None (c : N) (s : str) : cut [c] s = None <-> c ∉ s.
Proof.
  rewrite <-contains_char. unfold contains.
  by destruct (cut [c] s) as [[??]|].
Qed.

Lemma splitn_char_app (c : N) (m n k : nat) (p r : str) :
  (length p <= m)%nat -> (length r <= k)%nat ->
  (length p + 1 + length r <= n)%nat ->
  splitn n [c] (p ++ [c] ++ r) = splitn m [c] p ++ splitn k [c] r.
Proof.
  assert ([c] <> []) as Hc by done.
  revert n p. induction m as [|m IH]; intros n p Hm Hk Hn.
  - destruct p; [|simpl in Hm; lia]. destruct n as [|n]; [simpl in Hn; lia|].
    pose proof (cut_char c [] r ltac:(by intros Hin; inversion Hin)) as Hcut.
    cbn [splitn app] in *. rewrite Hcut.
    f_equal. apply splitn_more; [done|simpl in Hn; lia|done].
  - destruct n as [|n]; [lia|]. cbn [splitn].
    destruct (cut [c] p) as [[a b]|] eqn:E.
    + pose proof (cut_before _ _ _ _ Hc E) as Ha. apply contains_char in Ha.
      pose proof (cut_shorter _ _ _ _ Hc E) as Hlt.
      pose proof (cut_Some _ _ _ _ E) as ->.
      rewrite <-!app_assoc. rewrite (cut_char c a) by done.
      cbn [app]. f_equal.
      rewrite !length_app in Hn. cbn [length] in Hn.
      apply (IH n b); [lia|done|lia].
    + apply cut_char_None in E. rewrite (cut_char c p) by done.
      cbn [app]. f_equal. apply splitn_more; [done|lia|done].
Qed.

Lemma split_char_app (c : N) (p r : str) :
  split [c] (p ++ [c] ++ r) = split [c] p ++ split [c] r.
Proof.
  unfold split. apply splitn_char_app; [done|done|].
  rewrite !length_app. simpl. lia.
Qed.

Lemma extract_raw_text_acc (pages : list str) (acc : str) :
  fold_left (fun raw_text page => raw_text ++ (page ++ [10])) pages acc =
    acc ++ extract_raw_text pages.
Proof.
  unfold extract_raw_text. revert acc.
  induction pages as [|page pages IH]; intros acc; simpl.
  - by rewrite app_nil_r.
  - rewrite IH, (IH (page ++ [10])). by rewrite <-!app_assoc.
Qed.

(** The lines of the document are the lines of its pages, page after
    page, and one empty line at the end. *)
Lemma lines_of_pages (pages : list str) :
  split [10] (extract_raw_text pages) =
    concat (split [10] <$> pages) ++ [[]].
Proof.
  induction pages as [|page pages IH]; [done|].
  unfold extract_raw_text. cbn [fold_left app].
  rewrite extract_raw_text_acc, <-app_assoc, split_char_app, IH.
  by rewrite fmap_cons, concat_cons, <-app_assoc.
Qed.

Lemma parse_lines_concat (pdf_path : str) (ls : list (list str)) :
  parse_lines pdf_path (concat ls) [] =
    concat ((fun l => parse_lines pdf_path l []) <$> ls).
Proof.
  induction ls as [|l ls IH]; [done|].
  by rewrite concat_cons, parse_lines_app, IH.
Qed.

(** X5. The records of a document are the records of its pages, page
    after page: the line break added after every page keeps the last
    line of a page apart from the first line of the next one. *)
Theorem records_of_document_page_by_page (pdf_path : str) (pages : list str) :
  parse_lines pdf_path (split [10] (extract_raw_text pages)) [] =
    concat ((fun page => parse_lines pdf_path (split [10] page) [])
              <$> pages).
Proof.
  rewrite lines_of_pages, parse_lines_app, parse_lines_concat.
  rewrite <-list_fmap_compose.
  change (parse_lines pdf_path [[]] []) with (@nil Document).
  by rewrite app_nil_r.
Qed.

(** ** The fixture generator *)

Lemma lit_String (a : Ascii.ascii) (s : string) :
  lit (String a s) = Ascii.N_of_ascii a :: lit s.
Proof. done. Qed.

Lemma pretty_N_char_digit (x : N) :
  x < 10 -> Ascii.N_of_ascii (pretty_N_char x) = 48 + x.
Proof.
  intros H.
  assert (x = 0 \/ x = 1 \/ x = 2 \/ x = 3 \/ x = 4 \/ x = 5 \/ x = 6
          \/ x = 7 \/ x = 8 \/ x = 9) as Hx by lia.
  repeat (destruct Hx as [->|Hx]; [done|]). by subst.
Qed.

Lemma foldl_decimal (acc : N) (s : str) :
  foldl (fun acc c => 10 * acc + (c - 48)) acc s =
    acc * 10 ^ N.of_nat (length s) + int_of_str s.
Proof.
  unfold int_of_str. revert acc. induction s as [|c s IH]; intros acc.
  - simpl. lia.
  - cbn [foldl length]. rewrite IH, (IH (10 * 0 + (c - 48))).
    rewrite Nat2N.inj_succ, N.pow_succ_r'.
    generalize (c - 48) (10 ^ N.of_nat (length s))
      (foldl (fun acc c => 10 * acc + (c - 48)) 0 s).
    intros d p v. ring.
Qed.

Lemma int_of_str_pretty_N_go (x : N) (s : string) :
  int_of_str (lit (pretty_N_go x s)) =
    x * 10 ^ N.of_nat (length (lit s)) + int_of_str (lit s).
Proof.
  revert s. induction (N.lt_wf_0 x) as [x _ IH]; intros s.
  destruct (decide (x = 0)) as [->|Hx].
  - rewrite pretty_N_go_0. lia.
  - rewrite pretty_N_go_step by lia.
    rewrite IH by (apply N.div_lt; lia).
    rewrite lit_String. cbn [length].
    unfold int_of_str at 1. cbn [foldl].
    rewrite foldl_decimal, pretty_N_char_digit by (apply N.mod_lt; lia).
    rewrite Nat2N.inj_succ, N.pow_succ_r'.
    pose proof (N.div_mod x 10 ltac:(lia)) as Hdm.
    remember (x `div` 10) as q eqn:Hq. remember (x `mod` 10) as r eqn:Hr.
    clear Hq Hr. subst x.
    replace (10 * 0 + (48 + r - 48)) with r by lia.
    generalize (10 ^ N.of_nat (length (lit s))) (int_of_str (lit s)).
    intros p v. ring.
Qed.

(** [int(str(n)) = n] *)
Lemma int_of_str_of_int (n : N) : int_of_str (str_of_int n) = n.
Proof.
  unfold str_of_int, pretty, pretty_N. destruct (decide (n = 0)) as [->|Hn].
  - done.
  - rewrite int_of_str_pretty_N_go. cbn. lia.
Qed.

Lemma pretty_N_go_digits (x : N) (s : string) :
  Forall is_digit (lit s) -> Forall is_digit (lit (pretty_N_go x s)).
Proof.
  revert s. induction (N.lt_wf_0 x) as [x _ IH]; intros s Hs.
  destruct (decide (x = 0)) as [->|Hx].
  - by rewrite pretty_N_go_0.
  - rewrite pretty_N_go_step by lia. apply IH; [apply N.div_lt; lia|].
    rewrite lit_String. constructor; [|done].
    pose proof (N.mod_lt x 10 ltac:(lia)) as Hlt.
    rewrite pretty_N_char_digit by done. unfold is_digit.
    revert Hlt. generalize (x `mod` 10). intros r Hlt. lia.
Qed.

Lemma pretty_N_go_length (x : N) (s : string) :
  (length (lit s) <= length (lit (pretty_N_go x s)))%nat.
Proof.
  revert s. induction (N.lt_wf_0 x) as [x _ IH]; intros s.
  destruct (decide (x = 0)) as [->|Hx].
  - by rewrite pretty_N_go_0.
  - rewrite pretty_N_go_step by lia.
    etrans; [|apply IH, N.div_lt; lia]. rewrite lit_String. simpl. lia.
Qed.

Lemma str_of_int_digits (n : N) :
  Forall is_digit (str_of_int n) /\ str_of_int n <> [].
Proof.
  unfold str_of_int, pretty, pretty_N. destruct (decide (n = 0)) as [->|Hn].
  - split; [|done]. repeat constructor; unfold is_digit; cbn; lia.
  - split; [by apply pretty_N_go_digits|].
    rewrite pretty_N_go_step by lia.
    pose proof (pretty_N_go_length (n `div` 10)
                  (String (pretty_N_char (n `mod` 10)) "")) as Hlen.
    intros Heq. rewrite Heq in Hlen. simpl in Hlen. lia.
Qed.

Lemma format_03d_digits (n : N) :
  Forall is_digit (format_03d n) /\ format_03d n <> [].
Proof.
  destruct (str_of_int_digits n) as [Hd Hne]. unfold format_03d. cbv zeta.
  split.
  - apply Forall_app. split; [|done].
    apply Forall_replicate. unfold is_digit. lia.
  - intros Heq. apply app_eq_nil in Heq as [_ ?]. done.
Qed.

Lemma int_of_str_zeros (k : nat) (s : str) :
  int_of_str (replicate k 48 ++ s) = int_of_str s.
Proof.
  unfold int_of_str. rewrite foldl_app.
  assert (foldl (fun acc c => 10 * acc + (c - 48)) 0 (replicate k 48) = 0)
    as ->; [|done].
  induction k as [|k IH]; [done|]. cbn [replicate foldl].
  replace (10 * 0 + (48 - 48)) with 0 by lia. done.
Qed.

(** The padded number still names the number. *)
Lemma format_03d_inj (a b : N) : format_03d a = format_03d b -> a = b.
Proof.
  intros H. apply (f_equal int_of_str) in H. unfold format_03d in H.
  by rewrite !int_of_str_zeros, !int_of_str_of_int in H.
Qed.

Lemma random_choice_elem {A} (l : list A) (draw : nat) (x : A) :
  random_choice l draw = Some x -> x ∈ l.
Proof. unfold random_choice. apply list_elem_of_lookup_2. Qed.

Lemma random_choice_Some {A} (l : list A) (draw : nat) :
  l <> [] -> is_Some (random_choice l draw).
Proof.
  intros Hne. unfold random_choice. apply lookup_lt_is_Some.
  apply Nat.mod_upper_bound. by destruct l.
Qed.

Lemma dict_get_elem (d : list (str * list str)) (key : str) (v : list str) :
  dict_get d key = Some v -> (key, v) ∈ d.
Proof.
  induction d as [|[k w] d IH]; [done|]. cbn [dict_get].
  destruct (decide (k = key)) as [->|_].
  - intros [= ->]. by left.
  - intros H. right. by apply IH.
Qed.

Lemma dict_get_Some (d : list (str * list str)) (key : str) :
  key ∈ d.*1 -> is_Some (dict_get d key).
Proof.
  induction d as [|[k w] d IH]; [by intros H; inversion H|].
  cbn [dict_get fmap list_fmap fst]. destruct (decide (k = key)) as [->|Hne].
  - by eexists.
  - intros Hin. apply elem_of_cons in Hin as [?|?]; [by subst|by apply IH].
Qed.

Lemma random_randint_bound (draw : nat) : random_randint 0 100 draw <= 100.
Proof.
  unfold random_randint.
  pose proof (N.mod_lt (N.of_nat draw) (100 - 0 + 1) ltac:(lia)) as H.
  revert H. generalize (N.of_nat draw `mod` (100 - 0 + 1)). intros r H. lia.
Qed.

(** Every name of the table is plain, and every category has names. *)
Lemma categories_plain :
  Forall (fun cf => plain_name cf.1 = true /\ cf.2 <> [] /\
                    Forall (fun f => plain_name f = true) cf.2) categories.
Proof. apply (bool_decide_unpack _). by vm_compute. Qed.

(** The loop: it never fails, it adds one row per iteration until
    [count] reaches 1500, and the row it adds when [count] becomes [c] is
    a generated row for [c]. *)
Lemma generate_rows_spec (fuel : nat) (rand : nat -> nat) (drawn : nat)
    (count : N) (data : list str) :
  exists rows,
    generate_rows fuel rand drawn count data = Some (data ++ rows) /\
    length rows = (fuel `min` N.to_nat (1500 - count))%nat /\
    forall i row, rows !! i = Some row ->
      generated_row (count + 1 + N.of_nat i) row.
Proof.
  revert drawn count data. induction fuel as [|fuel IH]; intros drawn count data.
  { exists []. rewrite app_nil_r. split; [done|]. split; [done|].
    intros i row H. by rewrite lookup_nil in H. }
  cbn [generate_rows]. destruct (N.ltb_spec count 1500) as [Hlt|Hge].
  2: { exists []. rewrite app_nil_r. split; [done|]. split.
       - replace (1500 - count) with 0 by lia. simpl. lia.
       - intros i row H. by rewrite lookup_nil in H. }
  destruct (random_choice_Some (categories.*1) (rand drawn)) as [cat Hcat];
    [done|].
  rewrite Hcat. apply random_choice_elem in Hcat.
  destruct (dict_get_Some categories cat Hcat) as [feats Hfeats].
  rewrite Hfeats. apply dict_get_elem in Hfeats.
  pose proof (proj1 (Forall_forall _ _) categories_plain _ Hfeats)
    as (_ & Hne & _). cbn [snd] in Hne.
  destruct (random_choice_Some feats (rand (S drawn)) Hne) as [fb Hfb].
  rewrite Hfb. apply random_choice_elem in Hfb. cbv zeta.
  match goal with
  | |- context [generate_rows fuel rand ?dr ?c (data ++ [?row])] =>
      destruct (IH dr c (data ++ [row])) as (rows & Hrun & Hlen & Hrows);
      exists (row :: rows)
  end.
  split; [by rewrite Hrun, <-app_assoc|]. split.
  - cbn [length]. rewrite Hlen. lia.
  - intros [|i] row; cbn [lookup list_lookup].
    + intros [= <-]. replace (count + 1 + N.of_nat 0) with (count + 1) by lia.
      exists cat, feats, fb, (random_randint 0 100 (rand (S (S drawn)))).
      split; [done|]. split; [done|]. split; [apply random_randint_bound|done].
    + intros Hi. apply Hrows in Hi.
      by replace (count + 1 + N.of_nat (S i)) with (count + 1 + 1 + N.of_nat i)
        by lia.
Qed.


Lemma strip_head_last (s : str) : head_ok s -> last_ok s -> strip s = s.
Proof.
  intros (c & m & -> & Hc) (m' & d & Hs & Hd). unfold strip.
  cbn [lstrip]. rewrite Hc. unfold rstrip. rewrite Hs, rev_unit.
  cbn [lstrip]. rewrite Hd. change (d :: rev m') with ([d] ++ rev m').
  rewrite rev_app_distr, rev_involutive. done.
Qed.

Lemma head_ok_app (a b : str) : head_ok a -> head_ok (a ++ b).
Proof. intros (c & m & -> & Hc). by exists c, (m ++ b). Qed.

Lemma last_ok_app (a b : str) : last_ok b -> last_ok (a ++ b).
Proof.
  intros (m & d & -> & Hd). exists (a ++ m), d. by rewrite app_assoc.
Qed.

Lemma plain_name_spec (s : str) :
  plain_name s = true ->
  (124 ∉ s) /\ (35 ∉ s) /\ head_ok s /\ last_ok s.
Proof.
  unfold plain_name. intros H.
  apply andb_prop in H as [H H4]. apply andb_prop in H as [H H3].
  apply andb_prop in H as [H1 H2].
  apply bool_decide_eq_true in H1, H2.
  split; [done|]. split; [done|]. split.
  - destruct s as [|c m]; [done|]. exists c, m. split; [done|].
    by apply negb_true_iff.
  - destruct (last s) as [d|] eqn:E; [|done].
    apply last_Some in E as [m ->]. exists m, d. split; [done|].
    by apply negb_true_iff.
Qed.

Lemma digits_spec (s : str) :
  Forall is_digit s -> s <> [] ->
  (124 ∉ s) /\ (35 ∉ s) /\ head_ok s /\ last_ok s.
Proof.
  intros Hd Hne.
  assert (forall c, c ∈ s -> c <> 124 /\ c <> 35 /\ isspace c = false) as Hc.
  { intros c Hin. apply (proj1 (Forall_forall _ _) Hd) in Hin.
    unfold is_digit in Hin.
    assert (c = 48 \/ c = 49 \/ c = 50 \/ c = 51 \/ c = 52 \/ c = 53
            \/ c = 54 \/ c = 55 \/ c = 56 \/ c = 57) as Hx by lia.
    repeat (destruct Hx as [->|Hx]; [done|]). by subst. }
  split; [intros Hin; by destruct (Hc _ Hin) as (? & _)|].
  split; [intros Hin; by destruct (Hc _ Hin) as (_ & ? & _)|].
  split.
  - destruct s as [|c m]; [done|]. exists c, m. split; [done|].
    apply Hc. by left.
  - destruct (exists_last Hne) as (m & d & ->). exists m, d. split; [done|].
    apply Hc. apply elem_of_app. right. by left.
Qed.

Lemma parse_generated_row (pdf_path : str) (count : N) (row : str) :
  generated_row count row ->
  exists doc,
    parse_lines pdf_path [row] [] = [doc] /\
    generated_document pdf_path count doc.
Proof.
  intros (cat & feats & fb & v & Hcat & Hfb & Hv & ->).
  pose proof (proj1 (Forall_forall _ _) categories_plain _ Hcat)
    as (Hc & _ & Hfs). cbn [fst snd] in Hc, Hfs.
  pose proof (proj1 (Forall_forall _ _) Hfs _ Hfb) as Hf. cbn beta in Hf.
  apply plain_name_spec in Hc as (Hc1 & _ & Hc3 & Hc4).
  apply plain_name_spec in Hf as (Hf1 & _ & Hf3 & Hf4).
  destruct (format_03d_digits count) as [Hd Hdne].
  destruct (digits_spec _ Hd Hdne) as (Hn1 & _ & _ & Hn4).
  destruct (str_of_int_digits v) as [Hvd Hvne].
  destruct (digits_spec _ Hvd Hvne) as (Hv1 & _ & Hv3 & Hv4).
  assert (124 ∉ lit " #") as Hsharp
    by (apply (bool_decide_eq_false_1 (124 ∈ lit " #")); by vm_compute).
  assert (124 ∉ desc_mid) as Hmid
    by (apply (bool_decide_eq_false_1 (124 ∈ desc_mid)); by vm_compute).
  assert (124 ∉ desc_tail) as Htail
    by (apply (bool_decide_eq_false_1 (124 ∈ desc_tail)); by vm_compute).
  assert (last_ok desc_tail) as Htl.
  { exists [32; 48516; 49437; 32; 51648], 54364. done. }
  set (name := fb ++ lit " #" ++ format_03d count).
  set (desc := cat ++ desc_mid ++ fb ++ desc_tail).
  assert (bar_free (name, cat, desc, str_of_int v)) as Hfree.
  { unfold bar_free. split; [|split; [done|split; [|done]]].
    - subst name. intros Hin.
      apply elem_of_app in Hin as [?|Hin]; [done|].
      apply elem_of_app in Hin as [?|?]; done.
    - subst desc. intros Hin.
      apply elem_of_app in Hin as [?|Hin]; [done|].
      apply elem_of_app in Hin as [?|Hin]; [done|].
      apply elem_of_app in Hin as [?|?]; done. }
  pose proof (parse_row_feature_row pdf_path _ Hfree) as Hrow. cbv beta iota in Hrow.
  eexists. split; [exact Hrow|].
  exists cat, feats, fb, v.
  split; [done|]. split; [done|]. split; [done|].
  split; [apply int_of_str_of_int|].
  assert (strip name = name) as Hs1.
  { apply strip_head_last; subst name; [by apply head_ok_app|].
    rewrite app_assoc. by apply last_ok_app. }
  assert (strip desc = desc) as Hs2.
  { apply strip_head_last; subst desc; [by apply head_ok_app|].
    rewrite !app_assoc. by apply last_ok_app. }
  unfold record_of_fields. fold name desc.
  by rewrite Hs1, Hs2, (strip_head_last cat),
    (strip_head_last (str_of_int v)).
Qed.

Lemma parse_lines_one_content (pdf_path row : str) (doc : Document) :
  parse_lines pdf_path [row] [] = [doc] -> page_content doc = row.
Proof.
  rewrite parse_lines_one, parse_row_Ok.
  destruct (contains (lit "ID: ") row && contains (lit " | ") row); [|done].
  by intros [= <-].
Qed.

(** Rows that each give one record give their records in order. *)
Lemma parse_lines_pointwise (pdf_path : str) (rows : list str)
    (P : nat -> Document -> Prop) :
  (forall i row, rows !! i = Some row ->
     exists doc, parse_lines pdf_path [row] [] = [doc] /\ P i doc) ->
  length (parse_lines pdf_path rows []) = length rows /\
  forall i doc, parse_lines pdf_path rows [] !! i = Some doc ->
    rows !! i = Some (page_content doc) /\ P i doc.
Proof.
  induction rows as [|row rows IH] using rev_ind; intros H.
  { split; [done|]. intros i doc Hi. by destruct i. }
  destruct IH as [Hlen Hdocs].
  { intros i r Hi. apply H. by apply lookup_app_l_Some. }
  destruct (H (length rows) row) as (doc & Hdoc & HP).
  { by rewrite lookup_app_r, Nat.sub_diag. }
  rewrite parse_lines_app, Hdoc. split.
  - rewrite !length_app, Hlen. done.
  - intros i d Hi. apply lookup_app_Some in Hi as [Hi|[Hge Hi]].
    + destruct (Hdocs _ _ Hi) as [Hr HPi]. split; [|done].
      by apply lookup_app_l_Some.
    + rewrite Hlen in Hge, Hi.
      destruct (i - length rows)%nat as [|k] eqn:Ek; [|done].
      cbn in Hi. injection Hi as <-.
      replace i with (length rows) by lia. split; [|done].
      rewrite lookup_app_r, Nat.sub_diag by done. cbn.
      by rewrite (parse_lines_one_content _ _ _ Hdoc).
Qed.

Lemma generated_documents (rand : nat -> nat) (pdf_path : str) :
  exists data,
    generated_data rand = Some data /\
    length data = 1501%nat /\
    length (parse_lines pdf_path data []) = 1500%nat /\
    forall i doc, parse_lines pdf_path data [] !! i = Some doc ->
      data !! S i = Some (page_content doc) /\
      generated_document pdf_path (N.of_nat i + 1) doc.
Proof.
  destruct (generate_rows_spec 1500 rand 0 0 [lit "Feature Info"])
    as (rows & Hrun & Hlen & Hrows).
  exists (lit "Feature Info" :: rows). split; [exact Hrun|].
  split; [cbn [length]; by rewrite Hlen|].
  change (lit "Feature Info" :: rows) with ([lit "Feature Info"] ++ rows) at 1 2.
  rewrite parse_lines_app.
  change (parse_lines pdf_path [lit "Feature Info"] []) with (@nil Document).
  cbn [app].
  destruct (parse_lines_pointwise pdf_path rows
              (fun i doc => generated_document pdf_path (N.of_nat i + 1) doc))
    as [Hl Hd].
  - intros i row Hi. apply Hrows in Hi.
    replace (0 + 1 + N.of_nat i) with (N.of_nat i + 1) in Hi by lia.
    by apply parse_generated_row.
  - split; [by rewrite Hl, Hlen|]. intros i doc Hi. by apply Hd.
Qed.


(** X8. Whatever the random draws, the feature names of the
    generated records are pairwise distinct: the number after [#] tells
    them apart. *)
Theorem generated_feature_names_distinct (rand : nat -> nat) (pdf_path : str) :
  exists data,
    generated_data rand = Some data /\
    NoDup ((fun doc => metadata doc !! lit "feature_name")
             <$> parse_lines pdf_path data []).
Proof.
  destruct (generated_documents rand pdf_path) as (data & Hrun & _ & _ & Hdocs).
  exists data. split; [exact Hrun|].
  apply NoDup_alt. intros i j name Hi Hj.
  apply list_lookup_fmap_Some in Hi as (di & Hni & Hi).
  apply list_lookup_fmap_Some in Hj as (dj & Hnj & Hj).
  assert (metadata di !! lit "feature_name" = metadata dj !! lit "feature_name")
    as Hname by congruence.
  clear Hni Hnj name.
  destruct (Hdocs _ _ Hi) as (_ & ci & fsi & fbi & vi & Hci & Hfi & _ & _ & ->).
  destruct (Hdocs _ _ Hj) as (_ & cj & fsj & fbj & vj & Hcj & Hfj & _ & _ & ->).
  cbn [metadata] in Hname.
  assert (forall (p a b c d : str),
            ({[ lit "source" := p; lit "feature_name" := a;
                lit "category" := b; lit "description" := c;
                lit "value" := d ]} : gmap str str) !! lit "feature_name"
            = Some a) as Hlook by (intros; by vm_compute).
  remember (fbi ++ lit " #" ++ format_03d (N.of_nat i + 1)) as ni eqn:Hni.
  remember (fbj ++ lit " #" ++ format_03d (N.of_nat j + 1)) as nj eqn:Hnj.
  rewrite (Hlook pdf_path ni), (Hlook pdf_path nj) in Hname.
  injection Hname as Hname. subst ni nj.
  assert (forall cat feats fb, (cat, feats) ∈ categories -> fb ∈ feats ->
            35 ∉ fb ++ [32]) as Hsharp.
  { intros cat feats fb Hc Hf.
    pose proof (proj1 (Forall_forall _ _) categories_plain _ Hc) as (_ & _ & Hfs).
    pose proof (proj1 (Forall_forall _ _) Hfs _ Hf) as Hp. cbn beta in Hp.
    apply plain_name_spec in Hp as (_ & Hp & _).
    intros Hin. apply elem_of_app in Hin as [?|Hin]; [done|].
    by apply list_elem_of_singleton in Hin. }
  assert (forall fb c,
            fb ++ lit " #" ++ format_03d c =
            (fb ++ [32]) ++ [35] ++ format_03d c) as Hshape
    by (intros; by rewrite <-app_assoc).
  rewrite !Hshape in Hname.
  apply (f_equal (cut [35])) in Hname.
  rewrite !cut_char in Hname by eauto.
  injection Hname as _ Hfmt. apply format_03d_inj in Hfmt. lia.
Qed.

(** ** What the loader leaves alone *)

Lemma only_cache_changed_refl (st : state) : only_cache_changed st st.
Proof. by repeat split. Qed.

Lemma only_cache_changed_trans (st1 st2 st3 : state) :
  only_cache_changed st1 st2 -> only_cache_changed st2 st3 ->
  only_cache_changed st1 st3.
Proof.
  intros (H1 & H2 & H3 & H4 & H5) (G1 & G2 & G3 & G4 & G5).
  split; [congruence|]. split; [congruence|]. split; [congruence|].
  split; [congruence|]. intros path Hp. rewrite G5, H5; congruence.
Qed.

Lemma only_cache_changed_say (out : list message) (st : state) :
  only_cache_changed st (say out st).
Proof. by repeat split. Qed.

Lemma _save_to_json_frame (documents : list Document) (st : state) :
  (_save_to_json documents st).1 = Ok tt /\
  only_cache_changed st (_save_to_json documents st).2 /\
  vector_store (_save_to_json documents st).2 = vector_store st /\
  (json_path st ∈ locked st -> files (_save_to_json documents st).2 = files st).
Proof.
  rewrite _save_to_json_run.
  destruct (bool_decide (json_path st ∈ locked st)) eqn:E.
  - split; [done|]. split; [apply only_cache_changed_say|]. done.
  - split; [done|]. split.
    + repeat split. intros path Hp. cbn. by apply lookup_insert_ne.
    + split; [done|]. intros Hin. by apply bool_decide_eq_false in E.
Qed.

(** X9. [_save_to_json] never raises; it changes no file but the one
    at the cache path, leaves the index alone, and changes no file at
    all when the cache path cannot be opened for writing. *)
Theorem save_touches_only_the_cache (documents : list Document) (st : state) :
  (_save_to_json documents st).1 = Ok tt /\
  only_cache_changed st (_save_to_json documents st).2 /\
  vector_store (_save_to_json documents st).2 = vector_store st /\
  (json_path st ∈ locked st -> files (_save_to_json documents st).2 = files st).
Proof. apply _save_to_json_frame. Qed.

Lemma build_index_frame (documents : list Document) (st : state) :
  only_cache_changed st (build_index documents st).2 /\
  files (build_index documents st).2 = files st.
Proof.
  rewrite build_index_run. destruct documents as [|doc documents]; [done|].
  by destruct (from_documents (doc :: documents)).
Qed.

Lemma _load_from_json_frame (st : state) :
  exists out, (_load_from_json st).2 = say out st.
Proof.
  destruct (_load_from_json_run st) as [(d & _ & H)|(e & _ & H)]; rewrite H;
    by eexists.
Qed.

Lemma fresh_parse_frame (st : state) :
  only_cache_changed st (fresh_parse st).2.
Proof.
  rewrite fresh_parse_run.
  destruct (files st !! pdf_path st) as [f|]; [|apply only_cache_changed_say].
  destruct (as_pdf f) as [pages|]; [|apply only_cache_changed_say].
  cbv zeta. destruct (parse_lines _ _ _) as [|doc documents];
    [apply only_cache_changed_say|].
  destruct (_save_to_json_frame (doc :: documents) (say [Parsing_PDF] st))
    as (_ & Hs & _).
  destruct (_save_to_json (doc :: documents) (say [Parsing_PDF] st))
    as [r st1]. cbn [snd] in Hs.
  eapply only_cache_changed_trans; [apply (only_cache_changed_say [Parsing_PDF])|].
  eapply only_cache_changed_trans; [exact Hs|]. apply build_index_frame.
Qed.

Lemma load_and_index_frame (st : state) :
  only_cache_changed st (load_and_index st).2.
Proof.
  rewrite load_and_index_run. destruct (cache_valid st); [|apply fresh_parse_frame].
  destruct (_load_from_json_frame (say [Cache_valid] st)) as [out Hout].
  destruct (_load_from_json (say [Cache_valid] st)) as [[[|doc docs]|e] st1];
    cbn [snd] in Hout; subst st1; rewrite say_say.
  - eapply only_cache_changed_trans; [apply only_cache_changed_say|].
    apply fresh_parse_frame.
  - eapply only_cache_changed_trans; [apply only_cache_changed_say|].
    apply build_index_frame.
  - apply only_cache_changed_say.
Qed.

Lemma search_similar_features_frame (query : str) (k : nat) (st : state) :
  only_cache_changed st (search_similar_features query k st).2.
Proof.
  unfold search_similar_features, bind at 1, get at 1. unfold bind at 1.
  assert (only_cache_changed st
            (match vector_store st with
             | Some _ => ret tt
             | None => load_and_index
             end st).2) as H1.
  { destruct (vector_store st); [apply only_cache_changed_refl|].
    apply load_and_index_frame. }
  destruct (match vector_store st with
            | Some _ => ret tt
            | None => load_and_index
            end st) as [[[]|e] st1]; cbn [snd] in H1; [|done].
  unfold bind, get, provider, ret, raise.
  destruct (vector_store st1) as [store|]; [|done].
  by destruct (similarity_search_with_score store query k).
Qed.

(** X10. A call of [select_features_semantically], and with it
    [search_similar_features] and [load_and_index], never changes a file
    other than the one at the cache path, nor the paths of the loader;
    when the two paths differ the source document is as it was. *)
Theorem select_features_touches_only_the_cache (plan : MarketingPlan)
    (st : state) :
  only_cache_changed st (select_features_semantically plan st).2 /\
  only_cache_changed st (load_and_index st).2 /\
  (pdf_path st <> json_path st ->
   files (select_features_semantically plan st).2 !! pdf_path st =
     files st !! pdf_path st).
Proof.
  assert (only_cache_changed st (select_features_semantically plan st).2) as H.
  { rewrite select_features_semantically_run.
    pose proof (search_similar_features_frame (search_query plan) 10 st) as Hs.
    by destruct (search_similar_features (search_query plan) 10 st)
      as [[hits|e] st']. }
  split; [done|]. split; [apply load_and_index_frame|].
  intros Hne. by apply H.
Qed.

(** ** Exceptions *)

Lemma build_index_raises (documents : list Document) (st : state) (e : exn) :
  (build_index documents st).1 = Raise e -> e = ProviderError.
Proof.
  rewrite build_index_run. destruct documents; [done|].
  destruct (from_documents _); [done|]. by intros [= <-].
Qed.

Lemma fresh_parse_raises (st : state) (e : exn) :
  (fresh_parse st).1 = Raise e -> e = PdfReadError \/ e = ProviderError.
Proof.
  rewrite fresh_parse_run.
  destruct (files st !! pdf_path st) as [f|]; [|done].
  destruct (as_pdf f) as [pages|]; [|intros [= <-]; by left].
  cbv zeta. destruct (parse_lines _ _ _) as [|doc docs]; [done|].
  destruct (_save_to_json _ _) as [r s1]. intros H. right.
  by eapply build_index_raises.
Qed.

Lemma load_and_index_raises (st : state) (e : exn) :
  (load_and_index st).1 = Raise e -> e = PdfReadError \/ e = ProviderError.
Proof.
  rewrite load_and_index_run.
  destruct (cache_valid st); [|apply fresh_parse_raises].
  destruct (_load_from_json_run (say [Cache_valid] st))
    as [(d & _ & H)|(e' & _ & H)]; rewrite H.
  - destruct d; [apply fresh_parse_raises|]. intros He. right.
    by eapply build_index_raises.
  - apply fresh_parse_raises.
Qed.

(** X11. The only exceptions that leave [select_features_semantically]
    are the reader's (the source document cannot be read) and the
    provider's (the embedding or the index fails); with an index already
    built, only the provider's. *)
Theorem select_features_raises_only (plan : MarketingPlan) (st : state)
    (e : exn) :
  (select_features_semantically plan st).1 = Raise e ->
  (e = PdfReadError \/ e = ProviderError) /\
  (is_Some (vector_store st) -> e = ProviderError).
Proof.
  rewrite select_features_semantically_run.
  destruct (search_similar_features (search_query plan) 10 st)
    as [[hits|e'] st'] eqn:E; [done|].
  intros [= ->]. revert E.
  unfold search_similar_features, bind at 1, get at 1. unfold bind at 1.
  destruct (vector_store st) as [store|] eqn:Evs.
  - unfold ret at 1. unfold bind, get, provider, ret, raise. rewrite Evs.
    destruct (similarity_search_with_score store (search_query plan) 10);
      [done|].
    intros [= <- _]. split; [by right|done].
  - pose proof (load_and_index_raises st) as Hl.
    destruct (load_and_index st) as [[[]|e0] st1].
    + unfold bind, get, provider, ret, raise.
      destruct (vector_store st1) as [store|]; [|done].
      destruct (similarity_search_with_score store (search_query plan) 10);
        [done|].
      intros [= <- _]. split; [by right|]. by intros [? ?].
    + intros [= <- _]. split; [by apply Hl|]. by intros [? ?].
Qed.

(** ** An index that is built *)

(** X12. A loader that holds an index answers from it alone: the call
    reads and writes no file, prints nothing and leaves the state as it
    is, so the result is the same whatever has become of the source
    document and of the cache. *)
Theorem built_index_is_not_rebuilt (plan : MarketingPlan) (st : state)
    (store : index) (fs : gmap str file) :
  vector_store st = Some store ->
  select_features_semantically plan st =
    (match similarity_search_with_score store (search_query plan) 10 with
     | Some docs => Ok (select_one <$> hits_of docs)
     | None => Raise ProviderError
     end, st) /\
  (select_features_semantically plan (set_files fs st)).1 =
    (select_features_semantically plan st).1.
Proof.
  intros Hvs.
  assert (forall s, vector_store s = Some store ->
            select_features_semantically plan s =
              (match similarity_search_with_score store (search_query plan) 10
               with
               | Some docs => Ok (select_one <$> hits_of docs)
               | None => Raise ProviderError
               end, s)) as H.
  { intros s Hs. rewrite select_features_semantically_run.
    rewrite (search_similar_features_built _ _ _ _ Hs).
    by destruct (similarity_search_with_score store (search_query plan) 10). }
  split; [by apply H|]. by rewrite !H.
Qed.

(** ** The entries of the cache *)

Lemma load_items_all (data : list (gmap str jvalue)) (acc : list Document)
    (st : state) :
  Forall (fun item => is_Some (entry_document item)) data ->
  load_items data acc st = (Ok (acc ++ omap entry_document data), st).
Proof.
  intros H. revert acc. induction H as [|item data [doc Hdoc] _ IH]; intros acc.
  - simpl. by rewrite app_nil_r.
  - cbn [load_items omap list_omap]. rewrite Hdoc. unfold bind.
    unfold entry_document in Hdoc.
    destruct (default (JStr (lit "")) (item !! lit "page_content"));
      try done.
    destruct (default (JDict ∅) (item !! lit "metadata")); try done.
    injection Hdoc as <-. cbn [Document_new]. unfold ret at 1.
    rewrite IH. by rewrite <-app_assoc.
Qed.

Lemma load_items_one_bad (data : list (gmap str jvalue)) (acc : list Document)
    (st : state) :
  ~ Forall (fun item => is_Some (entry_document item)) data ->
  load_items data acc st = (Raise ValidationError, st).
Proof.
  revert acc. induction data as [|item data IH]; intros acc H.
  - by destruct H.
  - cbn [load_items]. unfold bind.
    destruct (entry_document item) as [doc|] eqn:Hdoc.
    + assert (is_Some (entry_document item)) as Hsome by (by eexists).
      unfold entry_document in Hdoc.
      destruct (default (JStr (lit "")) (item !! lit "page_content"));
        try done.
      destruct (default (JDict ∅) (item !! lit "metadata")); try done.
      cbn [Document_new]. unfold ret at 1. apply IH.
      intros Hall. apply H. by constructor.
    + unfold entry_document in Hdoc.
      destruct (default (JStr (lit "")) (item !! lit "page_content"));
        try done;
      destruct (default (JDict ∅) (item !! lit "metadata")); done.
Qed.


(** ** The second run *)

(** X14. After a run that parsed the source document into at least
    one record and could write the cache, with a clock not behind the
    modification time of the document and two different paths, a new
    loader finds the cache valid, takes exactly the parsed records from
    it, builds its index over them and does not parse the document
    again. *)
Theorem second_run_uses_the_cache (st : state) (f : file) (pages : list str) :
  pdf_path st <> json_path st ->
  files st !! pdf_path st = Some f ->
  as_pdf f = Some pages ->
  cache_valid st = false \/ cached_documents st = [] ->
  parse_lines (pdf_path st) (split [10] (extract_raw_text pages)) [] <> [] ->
  json_path st ∉ locked st ->
  (mtime f <= clock st)%Q ->
  let documents :=
    parse_lines (pdf_path st) (split [10] (extract_raw_text pages)) [] in
  let st1 := new_loader (load_and_index st).2 in
  cache_valid st1 = true /\
  cached_documents st1 = documents /\
  load_and_index st1 =
    build_index documents
      (say [Cache_valid; Loaded_from_cache (length documents)] st1) /\
  (Parsing_PDF ∉ printed load_and_index st1).
Proof.
  intros Hne Hf Hpages Hfresh Hdocs Hw Hclock documents st1.
  destruct (load_and_index_after_parse st f pages Hf Hpages Hfresh)
    as (_ & _ & _ & H4).
  destruct (H4 Hdocs Hw) as [_ Hfile]. fold documents in Hfile.
  destruct (load_and_index_frame st) as (Hp & Hj & _ & _ & Hother).
  assert (files st1 !! json_path st1 =
            Some (mkFile (clock st) None (Ok (cache_entry <$> documents))))
    as Hjson.
  { subst st1. unfold new_loader. cbn [files json_path set_vector_store].
    by rewrite Hj. }
  assert (files st1 !! pdf_path st1 = Some f) as Hpdf.
  { subst st1. unfold new_loader. cbn [files pdf_path set_vector_store].
    rewrite Hp, Hother by done. done. }
  assert (cache_valid st1 = true) as Hvalid.
  { unfold cache_valid, file_mtime. rewrite Hjson, Hpdf. cbn.
    by apply Qle_bool_iff. }
  assert (forall out,
            _load_from_json (say out st1) =
              (Ok documents,
               say [Loaded_from_cache (length documents)] (say out st1)))
    as Hload.
  { intros out.
    unfold _load_from_json, try_except, load_from_json_body, bind at 1, get.
    unfold bind at 1, json_load, bind at 1, get.
    cbn [files json_path say set_stdout]. rewrite Hjson. unfold lift.
    cbn [as_json]. unfold bind at 1. rewrite load_items_cache_entries.
    unfold bind, print, modify, ret. done. }
  assert (cached_documents st1 = documents) as Hcached.
  { rewrite <-(cached_documents_say [] st1). unfold cached_documents.
    by rewrite Hload. }
  split; [done|]. split; [done|].
  assert (load_and_index st1 =
            build_index documents
              (say [Cache_valid; Loaded_from_cache (length documents)] st1))
    as Hrun.
  { rewrite load_and_index_run, Hvalid, Hload, say_say.
    subst documents. by destruct (parse_lines _ _ _). }
  split; [done|].
  destruct (build_index_stdout documents
              (say [Cache_valid; Loaded_from_cache (length documents)] st1))
    as (rest & Hout & _ & Hmsg).
  rewrite (printed_stdout load_and_index st1
             ([Cache_valid; Loaded_from_cache (length documents)] ++ rest)).
  - intros Hin. repeat (apply elem_of_cons in Hin as [?|Hin]); try done.
    by destruct (Hmsg _ Hin).
  - rewrite Hrun, Hout. cbn. by rewrite <-app_assoc.
Qed.

End Engine.

(** * The properties at the sample states, with the sample provider *)

Arguments state_corrupt_cache {index}.
Arguments state_no_pdf {index}.
Arguments state_no_rows {index}.
Arguments state_no_cache {index}.
Arguments say {index} out st.
Arguments cache_valid {index} st.
Arguments printed {index A} m st.
Arguments pdf_path {index} s.
Arguments json_path {index} s.
Arguments vector_store {index} s.
Arguments files {index} s.
Arguments locked {index} s.

(** C2, as stated, fails where the cache is valid but does not decode:
    the source document is parsed all the same. *)
Lemma valid_cache_does_not_skip_parse :
  let st : state (list Document) := state_corrupt_cache in
  cache_valid st = true /\
  printed (load_and_index _ sample_from_documents) st =
    [Cache_valid; Error_loading_cache JSONDecodeError; Parsing_PDF;
     Saved_to_cache 1; Built_index 1] /\
  ~ (skips_parse_and_loads_cache _ sample_from_documents st <->
     cache_valid st = true).
Proof.
  assert (printed (load_and_index _ sample_from_documents)
            (@state_corrupt_cache (list Document)) =
            [Cache_valid; Error_loading_cache JSONDecodeError; Parsing_PDF;
             Saved_to_cache 1; Built_index 1]) as Hpr
    by (vm_compute; reflexivity).
  split; [by vm_compute|]. split; [exact Hpr|].
  intros [_ H]. destruct H as [Hnp _]; [by vm_compute|].
  apply Hnp. rewrite Hpr. do 2 apply list_elem_of_further.
  apply list_elem_of_here.
Qed.

(** C3 at a loader whose source document is missing, for two calls in
    a row. *)
Lemma missing_pdf_gives_empty_results_witness :
  let st : state (list Document) := state_no_pdf in
  files st !! pdf_path st = None /\ vector_store st = None /\
  load_and_index _ sample_from_documents st =
    (Ok tt, say [PDF_not_found sample_pdf] st) /\
  exists out,
    for_each _
      (select_features_semantically Q _ sample_from_documents sample_search)
      [sample_plan; sample_plan] st = (Ok [[]; []], say out st).
Proof.
  assert (files (@state_no_pdf (list Document))
            !! pdf_path (@state_no_pdf (list Document)) = None) as H1
    by reflexivity.
  assert (vector_store (@state_no_pdf (list Document)) = None) as H2
    by reflexivity.
  pose proof (missing_pdf_gives_empty_results Q (list Document)
                sample_from_documents sample_search state_no_pdf H1 H2)
    as (H3 & _ & _ & _ & H4).
  split; [exact H1|]. split; [exact H2|]. split; [exact H3|].
  destruct (H4 [sample_plan; sample_plan] []) as [out Hout].
  exists out. exact Hout.
Defined.

(** C4 at a fresh loader with a source document of one feature row. *)
Lemma one_selected_feature_per_hit_witness :
  let st : state (list Document) := state_no_cache in
  exists hits st',
    search_similar_features Q _ sample_from_documents sample_search
      (search_query sample_plan) 10 st = (Ok hits, st') /\
    length hits = 1%nat /\
    exists features,
      select_features_semantically Q _ sample_from_documents sample_search
        sample_plan st = (Ok features, st') /\
      length features = length hits.
Proof.
  cbv zeta.
  destruct (search_similar_features Q _ sample_from_documents sample_search
              (search_query sample_plan) 10 state_no_cache)
    as [[hits|e] st'] eqn:E.
  - exists hits, st'. split; [reflexivity|]. split.
    + vm_compute in E. injection E as <- _. reflexivity.
    + destruct (one_selected_feature_per_hit Q (list Document)
                  sample_from_documents sample_search sample_plan
                  state_no_cache st' hits E) as (features & H1 & H2 & _).
      exists features. split; [exact H1|exact H2].
  - vm_compute in E. discriminate E.
Defined.


(** C6 at a valid cache that does not decode. *)
Lemma cache_load_failure_is_a_cache_miss_witness :
  let st : state (list Document) := state_corrupt_cache in
  load_from_json_body _ st = (Raise JSONDecodeError, st) /\
  cache_valid st = true /\
  _load_from_json _ st = (Ok [], say [Error_loading_cache JSONDecodeError] st) /\
  Parsing_PDF ∈ printed (load_and_index _ sample_from_documents) st.
Proof.
  cbv zeta.
  assert (load_from_json_body (list Document) state_corrupt_cache =
            (Raise JSONDecodeError, state_corrupt_cache)) as Hb
    by reflexivity.
  assert (cache_valid (@state_corrupt_cache (list Document)) = true) as Hv
    by reflexivity.
  pose proof (cache_load_failure_is_a_cache_miss (list Document)
                sample_from_documents state_corrupt_cache state_corrupt_cache
                JSONDecodeError Hb) as (H1 & H2 & _).
  split; [exact Hb|]. split; [exact Hv|]. split; [exact H1|].
  exact (proj2 (H2 Hv)).
Defined.

(** C7 at a row whose category segment has no colon. *)
Lemma colonless_segment_is_omitted_witness :
  let line := lit "ID: App Launch | CAT Digital | VAL: 42" in
  contains (lit "ID: ") line = true /\ contains (lit " | ") line = true /\
  key_value (lit "CAT Digital") = None /\
  exists doc,
    parse_lines sample_pdf [line] [] = [doc] /\
    metadata doc !! lit "feature_name" = Some (lit "App Launch") /\
    metadata doc !! lit "category" = Some (lit "") /\
    metadata doc !! lit "value" = Some (lit "42").
Proof.
  cbv zeta.
  assert (contains (lit "ID: ") (lit "ID: App Launch | CAT Digital | VAL: 42")
          = true) as H1 by reflexivity.
  assert (contains (lit " | ") (lit "ID: App Launch | CAT Digital | VAL: 42")
          = true) as H2 by reflexivity.
  split; [exact H1|]. split; [exact H2|]. split; [reflexivity|].
  destruct (colonless_segment_is_omitted sample_pdf
              (lit "ID: App Launch | CAT Digital | VAL: 42") H1 H2)
    as (_ & (doc & Hdoc & _ & _ & Hfields) & _).
  exists doc. split; [exact Hdoc|].
  split; [|split].
  - rewrite (proj1 (Hfields (lit "ID") (lit "feature_name") (lit "Unknown")
                      ltac:(apply list_elem_of_here))).
    reflexivity.
  - rewrite (proj1 (Hfields (lit "CAT") (lit "category") (lit "")
                      ltac:(apply list_elem_of_further, list_elem_of_here))).
    reflexivity.
  - rewrite (proj1 (Hfields (lit "VAL") (lit "value") (lit "0")
                      ltac:(do 3 apply list_elem_of_further;
                            apply list_elem_of_here))).
    reflexivity.
Defined.

(** C8 at a source document without a feature row, and at one with a
    row. *)
Lemma cache_written_iff_records_parsed_witness :
  (let st : state (list Document) := state_no_rows in
   cache_valid st = false /\
   exists out,
     load_and_index _ sample_from_documents st = (Ok tt, say out st) /\
     No_content_parsed ∈ out) /\
  (let st : state (list Document) := state_no_cache in
   cache_valid st = false /\ (json_path st ∉ locked st) /\
   exists n,
     Saved_to_cache n ∈ printed (load_and_index _ sample_from_documents) st).
Proof.
  split; cbv zeta.
  - assert (cache_valid (@state_no_rows (list Document)) = false) as Hv
      by reflexivity.
    split; [exact Hv|].
    destruct (cache_written_iff_records_parsed (list Document)
                sample_from_documents state_no_rows
                (mkFile 1 (Some [lit "Marketing Feature Dictionary"])
                   (Raise JSONDecodeError))
                [lit "Marketing Feature Dictionary"]
                eq_refl eq_refl (or_introl Hv))
      as (_ & H2 & _).
    destruct (H2 eq_refl) as (out & Hrun & _ & Hin & _).
    exists out. split; [exact Hrun|exact Hin].
  - assert (cache_valid (@state_no_cache (list Document)) = false) as Hv
      by reflexivity.
    assert (json_path (@state_no_cache (list Document))
              ∉ locked (@state_no_cache (list Document))) as Hw
      by apply not_elem_of_empty.
    split; [exact Hv|]. split; [exact Hw|].
    destruct (cache_written_iff_records_parsed (list Document)
                sample_from_documents state_no_cache
                (mkFile 1 (Some sample_pages) (Raise JSONDecodeError))
                sample_pages eq_refl eq_refl (or_introl Hv))
      as (_ & _ & _ & _ & H5).
    apply (H5 Hw). vm_compute. discriminate.
Defined.

(** * The further properties at sample inputs *)

Arguments state_unreadable_pdf {index}.
Arguments state_good_cache {index}.
Arguments state_bad_cache {index}.
Arguments new_loader {index} st.

(** X1 for 122 messages over 5 days. *)
Lemma daily_quantities_add_up_witness :
  (0 < 5)%Z /\
  exists qs,
    plan_daily_quantities 122 5 = Some qs /\
    quantity <$> qs = [25; 25; 24; 24; 24]%Z /\
    foldr Z.add 0%Z (quantity <$> qs) = 122%Z.
Proof.
  assert (0 < 5)%Z as H by lia. split; [exact H|].
  destruct (daily_quantities_add_up 122 5 H) as (qs & Hqs & _ & _ & Hsum).
  exists qs. split; [exact Hqs|]. split; [|exact Hsum].
  vm_compute in Hqs. injection Hqs as <-. reflexivity.
Defined.

(** X2 for the first and the last day of the same plan. *)
Lemma daily_quantities_balanced_witness :
  (0 < 5)%Z /\
  plan_daily_quantities 122 5 =
    Some (mkDailyQuantity 1 25 :: mkDailyQuantity 2 25
          :: mkDailyQuantity 3 24 :: mkDailyQuantity 4 24
          :: [mkDailyQuantity 5 24]) /\
  (24 <= 25 <= 24 + 1)%Z.
Proof.
  assert (0 < 5)%Z as H by lia. split; [exact H|].
  assert (plan_daily_quantities 122 5 =
            Some (mkDailyQuantity 1 25 :: mkDailyQuantity 2 25
                  :: mkDailyQuantity 3 24 :: mkDailyQuantity 4 24
                  :: [mkDailyQuantity 5 24])) as Hqs by reflexivity.
  split; [exact Hqs|].
  exact (proj1 (daily_quantities_balanced 122 5 _ 0 4
                  (mkDailyQuantity 1 25) (mkDailyQuantity 5 24)
                  H Hqs eq_refl eq_refl ltac:(lia))).
Defined.

(** X3 for two rows, the second with blanks around its fields. *)
Lemma well_formed_rows_parse_witness :
  let rows :=
    [ (lit "App Launch #001", lit "Digital Engagement", lit "launches", lit "42");
      (lit " 5G Ratio #002 ", lit "Usage & Network", lit "", lit " 7") ] in
  Forall bar_free rows /\
  length (parse_lines sample_pdf
            ((fun '(feat_name, cat, desc, value) =>
                feature_row feat_name cat desc value) <$> rows) []) = 2%nat.
Proof.
  cbv zeta.
  assert (Forall bar_free
            [ (lit "App Launch #001", lit "Digital Engagement", lit "launches",
               lit "42");
              (lit " 5G Ratio #002 ", lit "Usage & Network", lit "", lit " 7") ])
    as H.
  { repeat constructor;
      apply (bool_decide_eq_false_1 (124 ∈ _)); by vm_compute. }
  split; [exact H|].
  exact (proj2 (well_formed_rows_parse sample_pdf _ H)).
Defined.

(** X4 for a row that gives [ID] twice. *)
Lemma last_segment_of_a_key_wins_witness :
  key_value (lit "ID: second") = Some (lit "ID", lit "second") /\
  exists m,
    parse_fields [lit "ID: first"; lit "ID: second"; lit "VAL: 3"] ∅ = Ok m /\
    m !! lit "ID" = Some (lit "second").
Proof.
  assert (key_value (lit "ID: second") = Some (lit "ID", lit "second")) as H
    by reflexivity.
  split; [exact H|].
  apply (last_segment_of_a_key_wins [lit "ID: first"] [lit "VAL: 3"]
           (lit "ID: second") (lit "ID") (lit "second") ∅ H).
  intros q k' v' Hin Hq. apply list_elem_of_singleton in Hin. subst q.
  vm_compute in Hq. injection Hq as <- _. discriminate.
Defined.

(** X11 at a source document that the reader rejects. *)
Lemma select_features_raises_only_witness :
  let st : state (list Document) := state_unreadable_pdf in
  (select_features_semantically Q _ sample_from_documents sample_search
     sample_plan st).1 = Raise PdfReadError /\
  (PdfReadError = PdfReadError \/ PdfReadError = ProviderError).
Proof.
  cbv zeta.
  assert ((select_features_semantically Q _ sample_from_documents sample_search
             sample_plan state_unreadable_pdf).1 = Raise PdfReadError) as H
    by reflexivity.
  split; [exact H|].
  exact (proj1 (select_features_raises_only Q (list Document)
                  sample_from_documents sample_search sample_plan
                  state_unreadable_pdf PdfReadError H)).
Defined.

(** X12 at a loader with an index, after the files are gone. *)
Lemma built_index_is_not_rebuilt_witness :
  let st : state (list Document) :=
    set_vector_store _ (Some [mkDocument sample_row ∅]) state_no_cache in
  vector_store st = Some [mkDocument sample_row ∅] /\
  (select_features_semantically Q _ sample_from_documents sample_search
     sample_plan (set_files _ ∅ st)).1 =
  (select_features_semantically Q _ sample_from_documents sample_search
     sample_plan st).1.
Proof.
  cbv zeta. split; [reflexivity|].
  exact (proj2 (built_index_is_not_rebuilt Q (list Document)
                  sample_from_documents sample_search sample_plan
                  (set_vector_store _ (Some [mkDocument sample_row ∅])
                     state_no_cache)
                  [mkDocument sample_row ∅] ∅ eq_refl)).
Defined.


(** X14 at a source document of one feature row and no cache. *)
Lemma second_run_uses_the_cache_witness :
  let st : state (list Document) := state_no_cache in
  let st1 := new_loader (load_and_index _ sample_from_documents st).2 in
  pdf_path st <> json_path st /\ (json_path st ∉ locked st) /\
  cache_valid st = false /\ (1 <= clock _ st)%Q /\
  cache_valid st1 = true /\
  (Parsing_PDF ∉ printed (load_and_index _ sample_from_documents) st1).
Proof.
  cbv zeta.
  assert (pdf_path (@state_no_cache (list Document))
          <> json_path (@state_no_cache (list Document))) as H1
    by discriminate.
  assert (json_path (@state_no_cache (list Document))
            ∉ locked (@state_no_cache (list Document))) as H2
    by apply not_elem_of_empty.
  assert (cache_valid (@state_no_cache (list Document)) = false) as H3
    by reflexivity.
  assert (1 <= clock (list Document) state_no_cache)%Q as H4
    by (by vm_compute).
  assert (parse_lines (pdf_path (@state_no_cache (list Document)))
            (split [10] (extract_raw_text sample_pages)) [] <> []) as H5
    by (vm_compute; discriminate).
  destruct (second_run_uses_the_cache (list Document) sample_from_documents
              state_no_cache
              (mkFile 1 (Some sample_pages) (Raise JSONDecodeError))
              sample_pages H1 eq_refl eq_refl (or_introl H3) H5 H2 H4)
    as (G1 & _ & _ & G4).
  split; [exact H1|]. split; [exact H2|]. split; [exact H3|].
  split; [exact H4|]. split; [exact G1|exact G4].
Defined.
